(** * SwimLanes sample-data validator: a shallow embedding and its properties

    The development follows [sample-data/validate-samples.py]:
    - Python string primitives used by the script ([str.strip], [str.lower]);
    - the fragment of [datetime.strptime] reached by [DATE_FORMATS];
    - [validate_date] (the Date Recognizer);
    - [csv.DictReader] rows and [validate_csv_file] (the File Validator).

    Strings are Rocq strings, read as sequences of code points below 256;
    the character classes below are Python's on that range.

    A file is what [open] and [csv.reader] make of it: [open] raises, or
    the reader gives a sequence of steps, each a record (the empty
    record for a blank line) or an exception.  The CSV syntax itself
    (delimiters, quoting) belongs to the library and is not modelled.
    Exceptions are values: a statement of the [try] block returns the
    updated locals together with its value or the exception raised. *)

From Stdlib Require Import ZArith Ascii String ZifyBool.
From stdpp Require Import base option list strings gmap pretty.

Local Open Scope string_scope.
Local Open Scope Z_scope.

(** ** Python string primitives *)

Module PyStr.

Definition ord (c : ascii) : Z := Z.of_N (N_of_ascii c).

(** [str.isspace] on one character: TAB..CR, FS..US, SPACE, NEL, NBSP. *)
Definition isspace (c : ascii) : bool :=
  let n := ord c in
  ((9 <=? n) && (n <=? 13)) || ((28 <=? n) && (n <=? 32))
  || (n =? 133) || (n =? 160).

(** [\d] of the [re] module on one character. *)
Definition isdigit (c : ascii) : bool :=
  let n := ord c in (48 <=? n) && (n <=? 57).

Fixpoint lstrip (s : string) : string :=
  match s with
  | EmptyString => EmptyString
  | String c s' => if isspace c then lstrip s' else s
  end.

Fixpoint rstrip (s : string) : string :=
  match s with
  | EmptyString => EmptyString
  | String c s' =>
      match rstrip s' with
      | EmptyString => if isspace c then EmptyString else String c EmptyString
      | r => String c r
      end
  end.

(** [s.strip()] *)
Definition strip (s : string) : string := rstrip (lstrip s).

(** [str.lower] on one character: A-Z and the Latin-1 capitals
    (0xC0-0xDE except the multiplication sign 0xD7) move up by 32. *)
Definition lower_char (c : ascii) : ascii :=
  let n := ord c in
  if ((65 <=? n) && (n <=? 90))
     || ((192 <=? n) && (n <=? 222) && negb (n =? 215))
  then ascii_of_N (Z.to_N (n + 32))
  else c.

Fixpoint lower (s : string) : string :=
  match s with
  | EmptyString => EmptyString
  | String c s' => String (lower_char c) (lower s')
  end.

(** Truthiness of a string: [if s:] holds for the non-empty ones. *)
Definition truthy (s : string) : bool :=
  match s with EmptyString => false | _ => true end.

(** [int(s)] for the texts captured by the date directives: optional
    surrounding blanks, then decimal digits. *)
Definition digit_val (c : ascii) : Z := ord c - 48.

Fixpoint int_digits (acc : Z) (s : string) : Z :=
  match s with
  | EmptyString => acc
  | String c s' => int_digits (10 * acc + digit_val c) s'
  end.

Definition int (s : string) : Z := int_digits 0 (strip s).

End PyStr.

(** ** The fragment of [datetime.strptime] used by the script *)

Module Strptime.

(** Regular expressions without repetition, enough for the directive
    table of [_strptime.TimeRE]. *)
Inductive regex : Type :=
| Chr (c : ascii)              (* a literal character *)
| Rng (lo hi : ascii)          (* [lo-hi] *)
| Dig                          (* \d *)
| Cat (r1 r2 : regex)          (* r1 r2 *)
| Alt (r1 r2 : regex).         (* r1|r2 *)

Definition in_range (lo hi c : ascii) : bool :=
  (PyStr.ord lo <=? PyStr.ord c) && (PyStr.ord c <=? PyStr.ord hi).

(** Backtracking matcher: every way [r] matches a prefix of [s], as
    (matched text, remaining text), in the order the [re] engine tries
    them (left alternative first). *)
Fixpoint rx (r : regex) (s : string) : list (string * string) :=
  match r with
  | Chr c =>
      match s with
      | String c' s' => if Ascii.eqb c c' then [(String c' EmptyString, s')] else []
      | EmptyString => []
      end
  | Rng lo hi =>
      match s with
      | String c' s' => if in_range lo hi c' then [(String c' EmptyString, s')] else []
      | EmptyString => []
      end
  | Dig =>
      match s with
      | String c' s' => if PyStr.isdigit c' then [(String c' EmptyString, s')] else []
      | EmptyString => []
      end
  | Cat r1 r2 =>
      flat_map (fun m1 => map (fun m2 => (fst m1 +:+ fst m2, snd m2)) (rx r2 (snd m1)))
               (rx r1 s)
  | Alt r1 r2 => rx r1 s ++ rx r2 s
  end.

Inductive directive : Type := dY | dm | dd.

(** One element of a compiled format: a named group or a literal. *)
Inductive item : Type :=
| Group (d : directive)
| Literal (c : ascii).

(** ['Y': r"(?P<Y>\d\d\d\d)"] *)
Definition re_Y : regex := Cat Dig (Cat Dig (Cat Dig Dig)).

(** ['m': r"(?P<m>1[0-2]|0[1-9]|[1-9])"] *)
Definition re_m : regex :=
  Alt (Cat (Chr "1") (Rng "0" "2"))
 (Alt (Cat (Chr "0") (Rng "1" "9"))
      (Rng "1" "9")).

(** ['d': r"(?P<d>3[0-1]|[1-2]\d|0[1-9]|[1-9]| [1-9])"] *)
Definition re_d : regex :=
  Alt (Cat (Chr "3") (Rng "0" "1"))
 (Alt (Cat (Rng "1" "2") Dig)
 (Alt (Cat (Chr "0") (Rng "1" "9"))
 (Alt (Rng "1" "9")
      (Cat (Chr " ") (Rng "1" "9"))))).

Definition directive_regex (d : directive) : regex :=
  match d with dY => re_Y | dm => re_m | dd => re_d end.

(** [TimeRE.__getitem__]: the keys of the directive table that the
    formats of the script reach.  Any other character after [%] is a
    [KeyError] here; CPython's further keys (a, A, b, B, H, M, ...)
    occur in no format of the script and are left out. *)
Definition TimeRE (c : ascii) : option directive :=
  if Ascii.eqb c "Y" then Some dY
  else if Ascii.eqb c "m" then Some dm
  else if Ascii.eqb c "d" then Some dd
  else None.

(** [TimeRE.pattern]: split the format at each [%], replacing the
    character after it by its table entry.  [None] stands for the
    [KeyError] (bad directive) or [IndexError] (stray [%]) that
    [_strptime] turns into a [ValueError]. *)
Fixpoint pattern (format : string) : option (list item) :=
  match format with
  | EmptyString => Some []
  | String c rest =>
      if Ascii.eqb c "%" then
        match rest with
        | EmptyString => None
        | String k rest' =>
            match TimeRE k with
            | Some d => cons (Group d) <$> pattern rest'
            | None => None
            end
        end
      else cons (Literal c) <$> pattern rest
  end.

(** The named groups found by a match. *)
Record found := mkfound {
  found_Y : option string;
  found_m : option string;
  found_d : option string
}.

Definition no_groups : found := mkfound None None None.

Definition set_group (d : directive) (txt : string) (f : found) : found :=
  match d with
  | dY => mkfound (Some txt) (found_m f) (found_d f)
  | dm => mkfound (found_Y f) (Some txt) (found_d f)
  | dd => mkfound (found_Y f) (found_m f) (Some txt)
  end.

(** All matches of a compiled format against a prefix of [s], in
    backtracking order, with the groups captured and the text left. *)
Fixpoint match_items (its : list item) (s : string) (f : found)
  : list (found * string) :=
  match its with
  | [] => [(f, s)]
  | Group d :: its' =>
      flat_map (fun m => match_items its' (snd m) (set_group d (fst m) f))
               (rx (directive_regex d) s)
  | Literal c :: its' =>
      flat_map (fun m => match_items its' (snd m) f) (rx (Chr c) s)
  end.

(** [format_regex.match(data_string)]: the first match, if any. *)
Definition re_match (its : list item) (s : string) : option (found * string) :=
  head (match_items its s no_groups).

(** A calendar date; [strptime] returns a [datetime] whose time of day
    is 00:00:00 for formats without time directives. *)
Record datetime := mkdatetime { dt_year : Z; dt_month : Z; dt_day : Z }.

Definition is_leap (y : Z) : bool :=
  ((y mod 4 =? 0) && negb (y mod 100 =? 0)) || (y mod 400 =? 0).

Definition days_in_month (y m : Z) : Z :=
  if m =? 2 then (if is_leap y then 29 else 28)
  else if (m =? 4) || (m =? 6) || (m =? 9) || (m =? 11) then 30
  else 31.

(** [datetime_date(year, month, day)]: [None] is its [ValueError]. *)
Definition datetime_date (y m d : Z) : option datetime :=
  if (1 <=? y) && (y <=? 9999) && (1 <=? m) && (m <=? 12)
     && (1 <=? d) && (d <=? days_in_month y m)
  then Some (mkdatetime y m d)
  else None.

Definition group_int (default : Z) (g : option string) : Z :=
  match g with Some txt => PyStr.int txt | None => default end.

(** The part of [_strptime] after the format is compiled: match,
    refuse unconverted data, convert the groups.  A missing year
    defaults to 1900, month and day to 1.  [None] is [ValueError]. *)
Definition parse (its : list item) (data_string : string)
  : option (found * datetime) :=
  match re_match its data_string with
  | None => None
  | Some (f, rest) =>
      if PyStr.truthy rest then None
      else pair f <$> datetime_date (group_int 1900 (found_Y f))
                                    (group_int 1 (found_m f))
                                    (group_int 1 (found_d f))
  end.

(** [datetime.strptime(data_string, format)]; [None] is [ValueError]:
    bad format, no match, unconverted data, or an impossible date. *)
Definition strptime (data_string format : string) : option datetime :=
  match pattern format with
  | None => None
  | Some its => snd <$> parse its data_string
  end.

End Strptime.

Export Strptime(datetime, mkdatetime, dt_year, dt_month, dt_day, strptime).

(** ** The Date Recognizer *)

(** Date formats to try *)
Definition DATE_FORMATS : list string :=
  [ "%Y-%m-%d";      (* ISO: 2025-06-01 *)
    "%m/%d/%Y";      (* US slash: 6/1/2025 *)
    "%m-%d-%Y";      (* US dash: 6-1-2025 *)
    "%-m/%-d/%Y";    (* US slash no padding: 6/1/2025 *)
    "%m/%d/%Y"       (* US slash padded: 06/01/2025 *)
  ].

(** The [for fmt in ...] loop of [validate_date] over a list of formats,
    applied to the stripped text. *)
Fixpoint try_formats (fmts : list string) (date_str : string)
  : bool * option datetime :=
  match fmts with
  | [] => (false, None)
  | fmt :: fmts' =>
      match strptime (PyStr.strip date_str) fmt with
      | Some dt => (true, Some dt)
      | None => try_formats fmts' date_str
      end
  end.

(** Try to parse a date string *)
Definition validate_date (date_str : string) : bool * option datetime :=
  if negb (PyStr.truthy date_str) || String.eqb (PyStr.strip date_str) ""
  then (true, None)   (* Empty is OK for optional fields *)
  else try_formats DATE_FORMATS date_str.

(** ** [csv.DictReader] *)

(** Exceptions that can leave the [try] block: [csv.Error], or any other
    subclass of [Exception] (an [OSError] from [open], a
    [UnicodeDecodeError] while reading, an [AttributeError] from the row
    checks); each carries the text [str(e)]. *)
Inductive exn : Type :=
| csv_Error (msg : string)
| Exception (msg : string).

(** One [next()] on the underlying [csv.reader]: a record, or an
    exception.  The end of the list is [StopIteration]. *)
Inductive step : Type :=
| Yield (fields : list string)
| Raise (e : exn).

(** What [open(filepath)] followed by [csv.reader] gives for a path. *)
Inductive file : Type :=
| open_raises (e : exn)
| open_ok (reader : list step).

(** Values stored in a [DictReader] row: a field, [restval] ([None]) for
    a field missing from a short row, or the list of surplus fields
    stored under [restkey] ([None]) for a long row. *)
Inductive pyval : Type :=
| PyNone
| PyStr (s : string)
| PyList (l : list string).

(** A row: keys are header names, or [None] for [restkey]. *)
Abbreviation row_dict := (gmap (option string) pyval).

Module DictReader.

(** [d[key] = value] for a field, and [d[key] = restval]. *)
Definition put_field (d : row_dict) (kv : string * string) : row_dict :=
  <[Some (fst kv) := PyStr (snd kv)]> d.

Definition put_none (d : row_dict) (key : string) : row_dict :=
  <[Some key := PyNone]> d.

(** [dict(zip(fieldnames, row))]: later duplicates overwrite. *)
Definition dict_zip (fieldnames row : list string) : row_dict :=
  foldl put_field ∅ (zip fieldnames row).

(** The dictionary built by [DictReader.__next__] for a non-blank record. *)
Definition make_row (fieldnames row : list string) : row_dict :=
  let d := dict_zip fieldnames row in
  let lf := length fieldnames in
  let lr := length row in
  if (lf <? lr)%nat then <[None := PyList (drop lf row)]> d
  else if (lr <? lf)%nat then
    foldl put_none d (drop lr fieldnames)
  else d.

(** The [fieldnames] property on a fresh reader: the first record, or
    [None] when the reader is exhausted; the rest of the reader. *)
Definition fieldnames (reader : list step)
  : (option (list string) * list step) + exn :=
  match reader with
  | [] => inl (None, [])
  | Yield r :: reader' => inl (Some r, reader')
  | Raise e :: _ => inr e
  end.

End DictReader.

(** [key in row] and [row.get(key, default)] for a header name. *)
Definition dict_in (key : string) (row : row_dict) : bool :=
  match row !! Some key with Some _ => true | None => false end.

Definition dict_get (key : string) (default : pyval) (row : row_dict) : pyval :=
  match row !! Some key with Some v => v | None => default end.

(** ** The File Validator *)

(** The mutable locals of [validate_csv_file]. *)
Record state := mkstate { errors : list string; row_count : Z }.

(** Statements of the [try] block: they update the locals and either
    finish with a value or raise. *)
Definition M (A : Type) : Type := state -> (A + exn) * state.

Global Instance M_ret : MRet M := fun A (a : A) st => (inl a, st).

Global Instance M_bind : MBind M := fun A B (k : A -> M B) (m : M A) st =>
  match m st with
  | (inl a, st') => k a st'
  | (inr e, st') => (inr e, st')
  end.

Definition raise {A} (e : exn) : M A := fun st => (inr e, st).

(** [errors.append(msg)] *)
Definition append_error (msg : string) : M unit :=
  fun st => (inl tt, mkstate (errors st ++ [msg])%list (row_count st)).

(** Reading the local [errors]. *)
Definition read_errors : M (list string) :=
  fun st => (inl (errors st), st).

(** [row_count += 1] *)
Definition incr_row_count : M unit :=
  fun st => (inl tt, mkstate (errors st) (row_count st + 1)).

(** The receiver of a call [v.strip()]: only strings have the method,
    on another value the attribute lookup raises [AttributeError]. *)
Definition str_receiver (v : pyval) : M string :=
  match v with
  | PyStr s => mret s
  | PyNone => raise (Exception "'NoneType' object has no attribute 'strip'")
  | PyList _ => raise (Exception "'list' object has no attribute 'strip'")
  end.

(** Truthiness of a row value. *)
Definition py_truthy (v : pyval) : bool :=
  match v with
  | PyNone => false
  | PyStr s => PyStr.truthy s
  | PyList l => match l with [] => false | _ => true end
  end.

(** Valid item types *)
Definition VALID_TYPES : gset string :=
  {[ "task"; "milestone"; "release"; "meeting" ]}.

Definition invalid_type_msg (idx : Z) (type_field : string) : string :=
  "Row " +:+ pretty idx +:+ ": Invalid type '" +:+ type_field
  +:+ "' (must be task/milestone/release/meeting)".

Definition invalid_date_msg (idx : Z) (date_val field_name : string) : string :=
  "Row " +:+ pretty idx +:+ ": Invalid date format '" +:+ date_val
  +:+ "' in column '" +:+ field_name +:+ "'".

(** Check for 'type' field if present *)
Definition check_type (idx : Z) (row : row_dict) : M unit :=
  if dict_in "type" row || dict_in "Type" row then
    s ← str_receiver (dict_get "type" (dict_get "Type" (PyStr "") row) row);
    let type_field := PyStr.lower (PyStr.strip s) in
    if PyStr.truthy type_field && negb (bool_decide (type_field ∈ VALID_TYPES))
    then append_error (invalid_type_msg idx type_field)
    else mret tt
  else mret tt.

Definition date_fields : list (list string) :=
  [ [ "start_date"; "Start Date"; "Start"; "start" ];
    [ "end_date"; "End Date"; "Finish"; "end"; "Due Date" ];
    [ "Date"; "date" ] ].

(** The body run for the first option found in the row; past the
    receiver test [date_val] is the string [s]. *)
Definition check_date_value (idx : Z) (field_name : string) (date_val : pyval)
  : M unit :=
  if py_truthy date_val then
    s ← str_receiver date_val;
    if PyStr.truthy (PyStr.strip s) then
      let '(is_valid, parsed) := validate_date s in
      if negb is_valid
      then append_error (invalid_date_msg idx s field_name)
      else mret tt
    else mret tt
  else mret tt.

(** [for field_name in date_field_options], leaving at the first name
    that is a key of the row. *)
Fixpoint check_date_options (idx : Z) (row : row_dict) (options : list string)
  : M unit :=
  match options with
  | [] => mret tt
  | field_name :: options' =>
      match row !! Some field_name with
      | Some date_val => check_date_value idx field_name date_val  (* break *)
      | None => check_date_options idx row options'
      end
  end.

(** [for date_field_options in date_fields] *)
Fixpoint check_date_fields (idx : Z) (row : row_dict) (groups : list (list string))
  : M unit :=
  match groups with
  | [] => mret tt
  | options :: groups' =>
      check_date_options idx row options ;;
      check_date_fields idx row groups'
  end.

(** The body of the row loop after the counter is bumped. *)
Definition check_row (idx : Z) (row : row_dict) : M unit :=
  check_type idx row ;;
  check_date_fields idx row date_fields.

(** [for idx, row in enumerate(reader, start=2)]: [DictReader.__next__]
    drops blank records before building the row. *)
Fixpoint rows_loop (headers : list string) (reader : list step) (idx : Z)
  : M unit :=
  match reader with
  | [] => mret tt
  | Raise e :: _ => raise e
  | Yield fields :: reader' =>
      match fields with
      | [] => rows_loop headers reader' idx
      | _ =>
          incr_row_count ;;
          check_row idx (DictReader.make_row headers fields) ;;
          rows_loop headers reader' (idx + 1)
      end
  end.

(** The result triple [(errors, warnings, row_count)]. *)
Definition outcome : Type := list string * list string * Z.

(** The [try] block: [Some r] is the early [return]; [None] falls
    through to the final [return]. *)
Definition try_block (f : file) (warnings : list string) : M (option outcome) :=
  match f with
  | open_raises e => raise e
  | open_ok reader =>
      match DictReader.fieldnames reader with
      | inr e => raise e
      | inl (headers, reader') =>
          match headers with
          | None | Some [] =>
              append_error "No headers found";;
              errs ← read_errors;
              mret (Some (errs, warnings, 0))
          | Some headers =>
              rows_loop headers reader' 2 ;;
              mret None
          end
      end
  end.

(** Validate a single CSV file *)
Definition validate_csv_file (filepath : file) : outcome :=
  let warnings := [] in
  match try_block filepath warnings (mkstate [] 0) with
  | (inl (Some early), _) => early
  | (inl None, st) => (errors st, warnings, row_count st)
  | (inr (csv_Error e), st) =>
      ((errors st ++ ["CSV parsing error: " +:+ e])%list, warnings, row_count st)
  | (inr (Exception e), st) =>
      ((errors st ++ ["Unexpected error: " +:+ e])%list, warnings, row_count st)
  end.


(** ** The compiled formats *)

Module Compiled.

Import Strptime.

(** The entries of [DATE_FORMATS] that [TimeRE.pattern] compiles: the
    first three (the fourth has no compiled form, the fifth repeats
    the second). *)
Inductive format : Type := ISO | Slash | Dash.

(** The entry as it is written in [DATE_FORMATS]. *)
Definition text (f : format) : string :=
  match f with
  | ISO => "%Y-%m-%d"
  | Slash => "%m/%d/%Y"
  | Dash => "%m-%d-%Y"
  end.

(** What [pattern] returns for the entry. *)
Definition layout (f : format) : list item :=
  match f with
  | ISO => [Group dY; Literal "-"; Group dm; Literal "-"; Group dd]
  | Slash => [Group dm; Literal "/"; Group dd; Literal "/"; Group dY]
  | Dash => [Group dm; Literal "-"; Group dd; Literal "-"; Group dY]
  end.

End Compiled.

(** [validate_date] with [DATE_FORMATS] replaced by another list. *)
Definition validate_date_with (fmts : list string) (date_str : string)
  : bool * option datetime :=
  if negb (PyStr.truthy date_str) || String.eqb (PyStr.strip date_str) ""
  then (true, None)
  else try_formats fmts date_str.

(** ** Vocabulary for the statements about [validate_csv_file] *)

(** The locals on entry of the [try] block. *)
Definition st0 : state := mkstate [] 0.

(** The locals after [row_count += 1]. *)
Definition bump (st : state) : state := mkstate (errors st) (row_count st + 1).

(** The locals after [errors.append(msg)]. *)
Definition with_error (st : state) (msg : string) : state :=
  mkstate (errors st ++ [msg])%list (row_count st).

(** The message an [except] clause appends for an exception. *)
Definition file_level_msg (e : exn) : string :=
  match e with
  | csv_Error m => "CSV parsing error: " +:+ m
  | Exception m => "Unexpected error: " +:+ m
  end.

(** The value whose [strip] the type check calls. *)
Definition consulted_type (row : row_dict) : pyval :=
  dict_get "type" (dict_get "Type" (PyStr "") row) row.

(** Records of a reader that [DictReader] turns into rows: the
    non-blank ones. *)
Definition is_data (s : step) : bool :=
  match s with
  | Yield (_ :: _) => true
  | _ => false
  end.

Fixpoint count_data (reader : list step) : Z :=
  match reader with
  | [] => 0
  | s :: reader' => (if is_data s then 1 else 0) + count_data reader'
  end.

(** The line of a file on which the record at position [k] of its
    reader lies (the header record is at position 0, on line 1) when
    every record takes one line. *)
Definition line_of_record (k : nat) : Z := Z.of_nat k + 1.

(** A row value is blank: missing, empty, or white space only. *)
Definition blank (v : pyval) : Prop :=
  v = PyNone ∨ ∃ s, v = PyStr s ∧ PyStr.strip s = "".

(** The locals after several [errors.append]. *)
Definition add_errors (st : state) (msgs : list string) : state :=
  mkstate (errors st ++ msgs)%list (row_count st).

(** The error a date value earns under a column name, if any. *)
Definition date_error (idx : Z) (field_name : string) (v : pyval) : list string :=
  match v with
  | PyStr s =>
      if PyStr.truthy (PyStr.strip s) && negb (validate_date s).1
      then [invalid_date_msg idx s field_name] else []
  | _ => []
  end.

(** The errors of one group of column names on a row: those of the
    first name that is a key of the row. *)
Fixpoint group_errors (idx : Z) (row : row_dict) (options : list string)
  : list string :=
  match options with
  | [] => []
  | field_name :: options' =>
      match row !! Some field_name with
      | Some v => date_error idx field_name v
      | None => group_errors idx row options'
      end
  end.

(** A statement that leaves the counter alone and only appends errors. *)
Definition quiet {A} (m : M A) : Prop :=
  forall st r st', m st = (r, st') ->
    row_count st' = row_count st /\ errors st `prefix_of` errors st'.

(** Type errors numbered by the line of the record: for a data record
    at position [k] of the reader whose type cell holds a text, the
    message carrying line [k + 1] is among the errors exactly when the
    normalised text is not empty and not a valid type. *)
Definition type_errors_numbered_by_line : Prop :=
  forall (reader : list step) (headers fields : list string) (k : nat) (v : string),
    reader !! 0%nat = Some (Yield headers) ->
    "type" ∈ headers \/ "Type" ∈ headers ->
    (0 < k)%nat ->
    reader !! k = Some (Yield fields) ->
    consulted_type (DictReader.make_row headers fields) = PyStr v ->
    let t := PyStr.lower (PyStr.strip v) in
    invalid_type_msg (line_of_record k) t
      ∈ (validate_csv_file (open_ok reader)).1.1
    <-> t <> "" /\ t ∉ VALID_TYPES.

(** ** The driver *)

(** The newline character, and [s * n]. *)
Definition nl : string := String "010"%char EmptyString.

Fixpoint str_mul (s : string) (n : nat) : string :=
  match n with
  | O => EmptyString
  | S n' => s +:+ str_mul s n'
  end.

(** [f"{s:<width}"] and [f"{s:>width}"]: blanks up to the width. *)
Definition ljust (width : nat) (s : string) : string :=
  s +:+ str_mul " " (width - String.length s).

Definition rjust (width : nat) (s : string) : string :=
  str_mul " " (width - String.length s) +:+ s.

(** [len(l)] *)
Definition len {A} (l : list A) : Z := Z.of_nat (length l).

(** Truthiness of a list. *)
Definition list_truthy {A} (l : list A) : bool :=
  match l with [] => false | _ => true end.

(** The locals of [main] and the texts passed to [print] so far.  The
    pictographs of the literals are given by their UTF-8 bytes. *)
Record driver := mkdriver {
  total_files : Z;
  total_errors : Z;
  total_warnings : Z;
  total_rows : Z;
  printed : list string
}.

Definition print (text : string) (d : driver) : driver :=
  mkdriver (total_files d) (total_errors d) (total_warnings d) (total_rows d)
           (printed d ++ [text])%list.

(** [for error in errors: print(f"      - {error}")] *)
Definition print_items (items : list string) (d : driver) : driver :=
  foldl (fun d item => print ("      - " +:+ item) d) d items.

(** The body of [for csv_file in csv_files], for a file given with its
    path relative to the sample directory. *)
Definition report (d : driver) (entry : string * file) : driver :=
  let '(rel_path, csv_file) := entry in
  let d := mkdriver (total_files d + 1) (total_errors d) (total_warnings d)
                    (total_rows d) (printed d) in
  let '(errors, warnings, row_count) := validate_csv_file csv_file in
  let d := mkdriver (total_files d) (total_errors d) (total_warnings d)
                    (total_rows d + row_count) (printed d) in
  if list_truthy errors || list_truthy warnings then
    let d := print (nl +:+ "📄 " +:+ rel_path) d in
    let d := print ("   Rows: " +:+ pretty row_count) d in
    let d :=
      if list_truthy errors then
        let d := mkdriver (total_files d) (total_errors d + len errors)
                          (total_warnings d) (total_rows d) (printed d) in
        let d := print ("   ❌ Errors (" +:+ pretty (len errors) +:+ "):") d in
        print_items errors d
      else d in
    if list_truthy warnings then
      let d := mkdriver (total_files d) (total_errors d)
                        (total_warnings d + len warnings) (total_rows d)
                        (printed d) in
      let d := print ("   ⚠️  Warnings (" +:+ pretty (len warnings) +:+ "):") d in
      print_items warnings d
    else d
  else
    print ("✅ " +:+ ljust 50 rel_path +:+ " ("
           +:+ rjust 3 (pretty row_count) +:+ " rows)") d.

(** Validate all CSV files in sample-data directory: [csv_files] is the
    sorted result of the recursive search; the result is the final
    locals with everything printed, and the exit status. *)
Definition main (csv_files : list (string * file)) : driver * Z :=
  let d := mkdriver 0 0 0 0 [] in
  let d := print ("🔍 Validating Sample Data Files" +:+ nl) d in
  let d := print (str_mul "=" 70) d in
  let d := foldl report d csv_files in
  let d := print (nl +:+ str_mul "=" 70) d in
  let d := print (nl +:+ "📊 Summary:") d in
  let d := print ("   Files validated:  " +:+ pretty (total_files d)) d in
  let d := print ("   Total data rows:  " +:+ pretty (total_rows d)) d in
  let d := print ("   Total errors:     " +:+ pretty (total_errors d)) d in
  let d := print ("   Total warnings:   " +:+ pretty (total_warnings d)) d in
  if total_errors d =? 0 then
    (print (nl +:+ "✨ All sample data files are valid!" +:+ nl) d, 0)
  else
    (print (nl +:+ "❌ Validation failed with " +:+ pretty (total_errors d)
            +:+ " errors" +:+ nl) d, 1).

(** ** Vocabulary for the statements about accepted texts *)

(** A text made of characters that satisfy a test. *)
Fixpoint string_forall (P : ascii -> bool) (s : string) : bool :=
  match s with
  | EmptyString => true
  | String c s' => P c && string_forall P s'
  end.

(** The characters a date text can hold: decimal digits (the class
    [\d] of the matcher), the two separators and the blank. *)
Definition date_char (c : ascii) : bool :=
  PyStr.isdigit c || Ascii.eqb c "-" || Ascii.eqb c "/" || Ascii.eqb c " ".

(** Shortest and longest text a regular expression matches. *)
Fixpoint min_len (r : Strptime.regex) : nat :=
  match r with
  | Strptime.Cat r1 r2 => min_len r1 + min_len r2
  | Strptime.Alt r1 r2 => Nat.min (min_len r1) (min_len r2)
  | _ => 1
  end.

Fixpoint max_len (r : Strptime.regex) : nat :=
  match r with
  | Strptime.Cat r1 r2 => max_len r1 + max_len r2
  | Strptime.Alt r1 r2 => Nat.max (max_len r1) (max_len r2)
  | _ => 1
  end.

(** Every character a regular expression can match satisfies a test. *)
Fixpoint regex_chars (P : ascii -> bool) (r : Strptime.regex) : Prop :=
  match r with
  | Strptime.Chr c => P c = true
  | Strptime.Rng lo hi => forall c, Strptime.in_range lo hi c = true -> P c = true
  | Strptime.Dig => forall c, PyStr.isdigit c = true -> P c = true
  | Strptime.Cat r1 r2 | Strptime.Alt r1 r2 => regex_chars P r1 /\ regex_chars P r2
  end.

(** The same three measures for a compiled format. *)
Definition item_regex (it : Strptime.item) : Strptime.regex :=
  match it with
  | Strptime.Group d => Strptime.directive_regex d
  | Strptime.Literal c => Strptime.Chr c
  end.

Definition items_min (its : list Strptime.item) : nat :=
  foldr (fun it n => min_len (item_regex it) + n)%nat 0%nat its.

Definition items_max (its : list Strptime.item) : nat :=
  foldr (fun it n => max_len (item_regex it) + n)%nat 0%nat its.

Definition items_chars (P : ascii -> bool) (its : list Strptime.item) : Prop :=
  Forall (fun it => regex_chars P (item_regex it)) its.

(** ** Vocabulary for the statements about whole results *)

(** A message of the row numbered [idx]: the type message, or a date
    message naming one of the column names of [date_fields]. *)
Definition row_message (idx : Z) (msg : string) : Prop :=
  (exists t, msg = invalid_type_msg idx t)
  \/ (exists v k, In k (concat date_fields) /\ msg = invalid_date_msg idx v k).

(** A message about the file as a whole. *)
Definition file_message (msg : string) : Prop :=
  msg = "No headers found" \/ exists e, msg = file_level_msg e.

(** A message of some row numbered from [lo] up to, not including, [hi]. *)
Definition row_message_in (lo hi : Z) (msg : string) : Prop :=
  exists idx, lo <= idx < hi /\ row_message idx msg.

(** A statement that leaves the counter alone and appends at most [k]
    errors, all of them satisfying [P]. *)
Definition emits {A} (k : nat) (P : string -> Prop) (m : M A) : Prop :=
  forall st r st', m st = (r, st') ->
    row_count st' = row_count st
    /\ exists l, errors st' = (errors st ++ l)%list
                /\ (length l <= k)%nat /\ Forall P l.

(** A reader step that cannot abort the scan of a file with a type
    column: a record that is blank or has a field for every header. *)
Definition full_record (headers : list string) (s : step) : bool :=
  match s with
  | Yield fields =>
      match fields with
      | [] => true
      | _ => (length headers <=? length fields)%nat
      end
  | Raise _ => false
  end.

Definition is_yield (s : step) : bool :=
  match s with Yield _ => true | Raise _ => false end.

(** A record without the fields beyond the last header. *)
Definition cut_record (headers : list string) (s : step) : step :=
  match s with
  | Yield fields => Yield (take (length headers) fields)
  | Raise e => Raise e
  end.

(** A blank record. *)
Definition is_blank (s : step) : bool :=
  match s with Yield [] => true | _ => false end.

(** ** Vocabulary for the statements about [main] *)

(** The errors and the row count of a listed file. *)
Definition file_errors (entry : string * file) : list string :=
  (validate_csv_file entry.2).1.1.

Definition file_rows (entry : string * file) : Z :=
  (validate_csv_file entry.2).2.

Definition sum_Z (l : list Z) : Z := foldr Z.add 0 l.

(** The texts printed for one file: one line when it has no error, else
    its path, its row count, the number of errors and the errors. *)
Definition report_lines (entry : string * file) : list string :=
  match file_errors entry with
  | [] =>
      ["✅ " +:+ ljust 50 entry.1 +:+ " ("
       +:+ rjust 3 (pretty (file_rows entry)) +:+ " rows)"]
  | errs =>
      [nl +:+ "📄 " +:+ entry.1;
       "   Rows: " +:+ pretty (file_rows entry);
       "   ❌ Errors (" +:+ pretty (len errs) +:+ "):"]
      ++ map (String.append "      - ") errs
  end%list.

(** Position and value of the first character of a text that is no
    digit. *)
Fixpoint first_non_digit (s : string) : option (nat * ascii) :=
  match s with
  | EmptyString => None
  | String c s' =>
      if PyStr.isdigit c
      then match first_non_digit s' with
           | Some (n, x) => Some (S n, x)
           | None => None
           end
      else Some (O, c)
  end.

(** ** Column widths of the spreadsheet conversion *)

(** [convert-to-xlsx.py], "Auto-adjust column widths": the loop over
    the cells of one column, given the texts [str(cell.value)] of its
    cells, and the width set for the column. *)
Definition longer (max_length : nat) (text : string) : nat :=
  if (max_length <? String.length text)%nat then String.length text
  else max_length.

Definition max_length (texts : list string) : nat := foldl longer 0%nat texts.

Definition adjusted_width (texts : list string) : nat :=
  Nat.min (max_length texts + 2) 50.

(** Date errors on every row: whenever, on a data record that the scan
    reaches, the first name of a group of [date_fields] that is a
    header holds a text that is not blank and that [validate_date]
    rejects, the message naming that row, value and column is among
    the errors of the file. *)
Definition date_error_on_every_row : Prop :=
  forall (headers : list string) (pre post : list step) (fields : list string)
         (before after : list string) (field_name s : string) (st1 : state),
    fields <> [] ->
    rows_loop headers pre 2 st0 = (inl tt, st1) ->
    In (before ++ field_name :: after)%list date_fields ->
    (forall b, In b before -> b ∉ headers) ->
    DictReader.make_row headers fields !! Some field_name = Some (PyStr s) ->
    PyStr.strip s <> "" ->
    (validate_date s).1 = false ->
    In (invalid_date_msg (2 + count_data pre) s field_name)
       (validate_csv_file
          (open_ok (Yield headers :: pre ++ Yield fields :: post)%list)).1.1.

(** ** The date texts in words *)

(** Cutting a text at the first occurrence of a character. *)
Fixpoint split_at (sep : ascii) (s : string) : option (string * string) :=
  match s with
  | EmptyString => None
  | String c s' =>
      if Ascii.eqb c sep then Some (EmptyString, s')
      else match split_at sep s' with
           | Some (a, b) => Some (String c a, b)
           | None => None
           end
  end.

(** The order of the three fields of a date text. *)
Inductive field_order : Type := YMD | MDY.

(** The four formats as the specification lists them.  Letters stand
    for digits; a month or a day may be written with one digit or with
    two in every format, which is the widest reading of the list (the
    dash format is given as MM-DD-YYYY, and 6-1-2025 as an example of
    it). *)
Module Worded.

Definition digit (c : ascii) : bool :=
  (48 <=? PyStr.ord c) && (PyStr.ord c <=? 57).

Fixpoint digits (t : string) : bool :=
  match t with
  | EmptyString => true
  | String c t' => digit c && digits t'
  end.

(** YYYY *)
Definition year_text (t : string) : bool :=
  digits t && (String.length t =? 4)%nat.

(** MM or M, DD or D *)
Definition short_text (t : string) : bool :=
  digits t && (1 <=? String.length t)%nat && (String.length t <=? 2)%nat.

Definition shape (o : field_order) (sep : ascii) (s : string) : bool :=
  match split_at sep s with
  | Some (a, r) =>
      match split_at sep r with
      | Some (b, c) =>
          match o with
          | YMD => year_text a && short_text b && short_text c
          | MDY => short_text a && short_text b && year_text c
          end
      | None => false
      end
  | None => false
  end.

(** ISO YYYY-MM-DD, slash-padded MM/DD/YYYY, dash MM-DD-YYYY,
    slash-unpadded M/D/YYYY. *)
Definition matches (s : string) : bool :=
  shape YMD "-" s || shape MDY "/" s || shape MDY "-" s || shape MDY "/" s.

End Worded.

(** A text without a blank. *)
Definition no_blank (s : string) : bool :=
  string_forall (fun c => negb (Ascii.eqb c " ")) s.

(** The first claim about the recognizer, as it is worded: a text that
    is not blank and has none of the four formats is rejected, with no
    date. *)
Definition only_listed_formats : Prop :=
  forall s : string,
    PyStr.strip s <> "" ->
    Worded.matches (PyStr.strip s) = false ->
    validate_date s = (false, None).

(** The texts of dates, field by field: a year of four digits; a month
    from 1 to 12 and a day from 1 to 31, each written with one digit or
    with two (a leading zero allowed), the day also as a blank and one
    digit; the three fields in one of three arrangements; the whole a
    date of the calendar from year 1 on. *)
Module Written.

Definition digit (c : ascii) : bool :=
  (48 <=? PyStr.ord c) && (PyStr.ord c <=? 57).

Definition value (c : ascii) : Z := PyStr.ord c - 48.

(** Four digits. *)
Definition year (t : string) : option Z :=
  match t with
  | String a (String b (String c (String d EmptyString))) =>
      if digit a && digit b && digit c && digit d
      then Some (1000 * value a + 100 * value b + 10 * value c + value d)
      else None
  | _ => None
  end.

(** A number from 1 to [hi], with one digit or with two. *)
Definition number (hi : Z) (t : string) : option Z :=
  match t with
  | String a EmptyString =>
      if digit a && (1 <=? value a) then Some (value a) else None
  | String a (String b EmptyString) =>
      let v := 10 * value a + value b in
      if digit a && digit b && (1 <=? v) && (v <=? hi) then Some v else None
  | _ => None
  end.

Definition month (t : string) : option Z := number 12 t.

(** A number from 1 to 31, or a blank and one digit from 1 to 9. *)
Definition day (t : string) : option Z :=
  match t with
  | String a (String b EmptyString) =>
      if Ascii.eqb a " "
      then (if digit b && (1 <=? value b) then Some (value b) else None)
      else number 31 t
  | _ => number 31 t
  end.

Definition leap (y : Z) : bool :=
  if y mod 400 =? 0 then true
  else if y mod 100 =? 0 then false
  else y mod 4 =? 0.

Definition month_days (y m : Z) : Z :=
  match m with
  | 2 => if leap y then 29 else 28
  | 4 | 6 | 9 | 11 => 30
  | _ => 31
  end.

(** The day exists in its month; there is no year 0. *)
Definition date (y m d : Z) : option datetime :=
  if (1 <=? y) && (d <=? month_days y m) then Some (mkdatetime y m d) else None.

(** A text with its fields in the order [o], separated by [sep]. *)
Definition read_as (o : field_order) (sep : ascii) (s : string)
  : option datetime :=
  match split_at sep s with
  | Some (a, r) =>
      match split_at sep r with
      | Some (b, c) =>
          match o with
          | YMD => y ← year a; m ← month b; d ← day c; date y m d
          | MDY => m ← month a; d ← day b; y ← year c; date y m d
          end
      | None => None
      end
  | None => None
  end.

(** year-month-day with hyphens, month/day/year with slashes,
    month-day-year with hyphens. *)
Definition read (s : string) : option datetime :=
  match read_as YMD "-" s with
  | Some d => Some d
  | None =>
      match read_as MDY "/" s with
      | Some d => Some d
      | None => read_as MDY "-" s
      end
  end.

End Written.

(** The field a directive stands for, and the arrangement of a
    compiled format. *)
Definition field (d : Strptime.directive) (t : string) : option Z :=
  match d with
  | Strptime.dY => Written.year t
  | Strptime.dm => Written.month t
  | Strptime.dd => Written.day t
  end.

Definition arrangement (f : Compiled.format) : field_order * ascii :=
  match f with
  | Compiled.ISO => (YMD, "-"%char)
  | Compiled.Slash => (MDY, "/"%char)
  | Compiled.Dash => (MDY, "-"%char)
  end.

(** * Properties of the Date Recognizer *)

Section DateRecognizer.

Import Strptime.

Lemma strip_empty : PyStr.strip "" = "".
Proof. reflexivity. Qed.

Lemma truthy_false (s : string) : PyStr.truthy s = false ↔ s = "".
Proof. destruct s; simpl; split; congruence. Qed.

Lemma eqb_empty (s : string) : String.eqb s "" = negb (PyStr.truthy s).
Proof. destruct s; reflexivity. Qed.

(** The guard of [validate_date] only depends on the stripped text. *)
Lemma empty_guard (s : string) :
  negb (PyStr.truthy s) || String.eqb (PyStr.strip s) ""
  = String.eqb (PyStr.strip s) "".
Proof. destruct s; reflexivity. Qed.

(** An entry that compiles is parsed with its compiled form. *)
Lemma pattern_text (f : Compiled.format) :
  pattern (Compiled.text f) = Some (Compiled.layout f).
Proof. by destruct f. Qed.

Lemma strptime_layout (f : Compiled.format) (s : string) :
  strptime s (Compiled.text f) = snd <$> parse (Compiled.layout f) s.
Proof. by destruct f. Qed.

(** ['-'] is no key of the directive table: the format never compiles. *)
Lemma strptime_bad_directive (s : string) : strptime s "%-m/%-d/%Y" = None.
Proof. reflexivity. Qed.

(** The loop over [DATE_FORMATS] is the loop over its first three entries. *)
Lemma try_formats_first_three (s : string) :
  try_formats DATE_FORMATS s = try_formats (take 3 DATE_FORMATS) s.
Proof.
  unfold DATE_FORMATS. cbn [take try_formats].
  rewrite strptime_bad_directive.
  destruct (strptime (PyStr.strip s) "%Y-%m-%d"); [reflexivity|].
  destruct (strptime (PyStr.strip s) "%m/%d/%Y"); [reflexivity|].
  destruct (strptime (PyStr.strip s) "%m-%d-%Y"); reflexivity.
Qed.

(** The loop over [DATE_FORMATS], on the compiled formats. *)
Lemma try_formats_layouts (s : string) :
  try_formats DATE_FORMATS s
  = match snd <$> parse (Compiled.layout Compiled.ISO) (PyStr.strip s) with
    | Some d => (true, Some d)
    | None =>
        match snd <$> parse (Compiled.layout Compiled.Slash) (PyStr.strip s) with
        | Some d => (true, Some d)
        | None =>
            match snd <$> parse (Compiled.layout Compiled.Dash) (PyStr.strip s) with
            | Some d => (true, Some d)
            | None => (false, None)
            end
        end
    end.
Proof.
  rewrite try_formats_first_three. unfold DATE_FORMATS. cbn [take try_formats].
  rewrite <- !strptime_layout. reflexivity.
Qed.

End DateRecognizer.

(** * Properties of [csv.DictReader] rows *)

Section Rows.

Implicit Types (headers fields : list string) (k : string) (d : row_dict).

Import DictReader.

Lemma foldl_put_field_is_Some d (l : list (string * string)) k :
  is_Some (foldl put_field d l !! Some k) ↔ is_Some (d !! Some k) ∨ k ∈ l.*1.
Proof.
  revert d. induction l as [|[k' v'] l IH]; intros d; simpl.
  - rewrite elem_of_nil. tauto.
  - rewrite IH. unfold put_field. simpl. rewrite elem_of_cons.
    destruct (decide (k = k')) as [->|Hne].
    + rewrite lookup_insert_eq. split; [tauto|]. intros _. left. by eexists.
    + rewrite lookup_insert_ne by congruence. tauto.
Qed.

Lemma foldl_put_none_lookup d (l : list string) k :
  foldl put_none d l !! Some k = if decide (k ∈ l) then Some PyNone else d !! Some k.
Proof.
  revert d. induction l as [|k' l IH]; intros d; simpl.
  - done.
  - rewrite IH. unfold put_none.
    destruct (decide (k ∈ l)) as [Hin|Hnin].
    + rewrite decide_True by (by right). done.
    + destruct (decide (k = k')) as [->|Hne].
      * rewrite lookup_insert_eq, decide_True by left. done.
      * rewrite lookup_insert_ne by congruence.
        rewrite decide_False; [done|]. rewrite elem_of_cons. tauto.
Qed.

Lemma foldl_put_field_values d (l : list (string * string)) k v :
  foldl put_field d l !! Some k = Some v →
  d !! Some k = Some v ∨ ∃ s, v = PyStr s.
Proof.
  revert d. induction l as [|[k' v'] l IH]; intros d; simpl; [tauto|].
  intros H. destruct (IH _ H) as [H'|H']; [|by right].
  unfold put_field in H'. simpl in H'.
  destruct (decide (k = k')) as [->|Hne].
  - rewrite lookup_insert_eq in H'. right. exists v'. congruence.
  - rewrite lookup_insert_ne in H' by congruence. by left.
Qed.

(** The keys of a row are the header names, whatever its length. *)
Lemma make_row_is_Some headers fields k :
  is_Some (DictReader.make_row headers fields !! Some k) ↔ k ∈ headers.
Proof.
  unfold DictReader.make_row, DictReader.dict_zip.
  destruct (length headers <? length fields)%nat eqn:E1.
  - apply Nat.ltb_lt in E1. rewrite lookup_insert_ne by discriminate.
    rewrite foldl_put_field_is_Some, lookup_empty, fst_zip by lia.
    rewrite is_Some_alt. tauto.
  - apply Nat.ltb_ge in E1.
    destruct (length fields <? length headers)%nat eqn:E2.
    + apply Nat.ltb_lt in E2. rewrite foldl_put_none_lookup.
      rewrite <- (take_drop (length fields) headers) at 3.
      rewrite elem_of_app.
      destruct (decide (k ∈ drop (length fields) headers)) as [Hin|Hnin].
      * split; [tauto|]. intros _. by eexists.
      * rewrite foldl_put_field_is_Some, lookup_empty, is_Some_alt.
        rewrite <- (fst_zip (take (length fields) headers) fields)
          by (rewrite length_take; lia).
        rewrite zip_with_take_l' by lia. tauto.
    + apply Nat.ltb_ge in E2.
      rewrite foldl_put_field_is_Some, lookup_empty, fst_zip by lia.
      rewrite is_Some_alt. tauto.
Qed.

Lemma dict_in_make_row headers fields k :
  dict_in k (DictReader.make_row headers fields) = bool_decide (k ∈ headers).
Proof.
  unfold dict_in.
  destruct (DictReader.make_row headers fields !! Some k) as [v|] eqn:E.
  - symmetry. apply bool_decide_eq_true. apply (make_row_is_Some headers fields).
    rewrite E. by eexists.
  - symmetry. apply bool_decide_eq_false. intros Hin.
    apply (make_row_is_Some headers fields) in Hin. rewrite E in Hin.
    by destruct Hin.
Qed.

(** A name that is no header is no key of the row. *)
Lemma make_row_absent headers fields k :
  k ∉ headers → DictReader.make_row headers fields !! Some k = None.
Proof.
  intros Hk. destruct (DictReader.make_row headers fields !! Some k) eqn:E; [|done].
  destruct Hk. apply (make_row_is_Some headers fields). rewrite E. by eexists.
Qed.

(** Under a header name a row holds a field or [None], never a list. *)
Lemma make_row_values headers fields k v :
  DictReader.make_row headers fields !! Some k = Some v →
  v = PyNone ∨ ∃ s, v = PyStr s.
Proof.
  unfold DictReader.make_row, DictReader.dict_zip.
  destruct (length headers <? length fields)%nat.
  - rewrite lookup_insert_ne by discriminate. intros H.
    apply foldl_put_field_values in H as [H|H]; [|by right].
    by rewrite lookup_empty in H.
  - destruct (length fields <? length headers)%nat.
    + rewrite foldl_put_none_lookup. destruct (decide _) as [_|_].
      * intros [= <-]. by left.
      * intros H. apply foldl_put_field_values in H as [H|H]; [|by right].
        by rewrite lookup_empty in H.
    + intros H. apply foldl_put_field_values in H as [H|H]; [|by right].
      by rewrite lookup_empty in H.
Qed.

(** A header name lying beyond the end of a short record maps to [None]. *)
Lemma make_row_missing (h1 h2 : list string) k fields :
  (length fields ≤ length h1)%nat →
  DictReader.make_row (h1 ++ k :: h2) fields !! Some k = Some PyNone.
Proof.
  intros Hlen. unfold DictReader.make_row.
  rewrite length_app. simpl.
  replace (length h1 + S (length h2) <? length fields)%nat with false
    by (symmetry; apply Nat.ltb_ge; lia).
  replace (length fields <? length h1 + S (length h2))%nat with true
    by (symmetry; apply Nat.ltb_lt; lia).
  rewrite foldl_put_none_lookup, decide_True; [done|].
  rewrite drop_app_le by lia. apply elem_of_app. right. left.
Qed.

End Rows.

(** * Properties of the File Validator *)

Section Validator.

Implicit Types (headers fields : list string) (row : row_dict)
  (st : state) (reader pre post : list step) (idx : Z).

(** *** The statement monad *)

Lemma bind_inl {A B} (m : M A) (k : A → M B) st a st' :
  m st = (inl a, st') → (m ≫= k) st = k a st'.
Proof. intros H. unfold mbind, M_bind. by rewrite H. Qed.

Lemma bind_inr {A B} (m : M A) (k : A → M B) st e st' :
  m st = (inr e, st') → (m ≫= k) st = (inr e, st').
Proof. intros H. unfold mbind, M_bind. by rewrite H. Qed.

Lemma quiet_mret {A} (a : A) : quiet (mret a : M A).
Proof. intros st r st' [= <- <-]. done. Qed.

Lemma quiet_raise {A} e : quiet (raise e : M A).
Proof. intros st r st' [= <- <-]. done. Qed.

Lemma quiet_append_error msg : quiet (append_error msg).
Proof.
  intros st r st' [= <- <-]. simpl. split; [done|]. by apply prefix_app_r.
Qed.

Lemma quiet_bind {A B} (m : M A) (k : A → M B) :
  quiet m → (∀ a, quiet (k a)) → quiet (m ≫= k).
Proof.
  intros Hm Hk st r st'. unfold mbind, M_bind.
  destruct (m st) as [[a|e] st1] eqn:E; destruct (Hm _ _ _ E) as [Hc Hp].
  - intros H. destruct (Hk a _ _ _ H) as [Hc' Hp']. split; [congruence|].
    by etrans.
  - intros [= <- <-]. done.
Qed.

Lemma quiet_str_receiver v : quiet (str_receiver v).
Proof. destruct v; [apply quiet_raise|apply quiet_mret|apply quiet_raise]. Qed.

Lemma quiet_check_type idx row : quiet (check_type idx row).
Proof.
  unfold check_type. destruct (_ || _); [|apply quiet_mret].
  apply quiet_bind; [apply quiet_str_receiver|]. intros s.
  destruct (_ && _); [apply quiet_append_error|apply quiet_mret].
Qed.

Lemma quiet_check_date_value idx k v : quiet (check_date_value idx k v).
Proof.
  unfold check_date_value. destruct (py_truthy v); [|apply quiet_mret].
  apply quiet_bind; [apply quiet_str_receiver|]. intros s.
  destruct (PyStr.truthy (PyStr.strip s)); [|apply quiet_mret].
  destruct (validate_date _) as [[] ?]; simpl;
    [apply quiet_mret|apply quiet_append_error].
Qed.

Lemma quiet_check_date_options idx row options :
  quiet (check_date_options idx row options).
Proof.
  induction options as [|k options IH]; simpl; [apply quiet_mret|].
  destruct (row !! Some k); [apply quiet_check_date_value|exact IH].
Qed.

Lemma quiet_check_date_fields idx row groups :
  quiet (check_date_fields idx row groups).
Proof.
  induction groups as [|g groups IH]; simpl; [apply quiet_mret|].
  apply quiet_bind; [apply quiet_check_date_options|]. intros _. exact IH.
Qed.

Lemma quiet_check_row idx row : quiet (check_row idx row).
Proof.
  apply quiet_bind; [apply quiet_check_type|]. intros _.
  apply quiet_check_date_fields.
Qed.

(** *** The type check *)

Lemma check_type_absent idx row st :
  dict_in "type" row || dict_in "Type" row = false →
  check_type idx row st = (inl tt, st).
Proof. intros H. unfold check_type. by rewrite H. Qed.

Lemma check_type_text idx row st v :
  dict_in "type" row || dict_in "Type" row = true →
  consulted_type row = PyStr v →
  check_type idx row st =
    (inl tt,
     let t := PyStr.lower (PyStr.strip v) in
     if PyStr.truthy t && negb (bool_decide (t ∈ VALID_TYPES))
     then with_error st (invalid_type_msg idx t) else st).
Proof.
  intros Hin Hv. unfold check_type. rewrite Hin.
  unfold consulted_type in Hv. rewrite Hv. simpl.
  unfold mbind, M_bind, mret, M_ret. simpl.
  by destruct (_ && _).
Qed.

Lemma check_type_none idx row st :
  dict_in "type" row || dict_in "Type" row = true →
  consulted_type row = PyNone →
  check_type idx row st =
    (inr (Exception "'NoneType' object has no attribute 'strip'"), st).
Proof.
  intros Hin Hv. unfold check_type. rewrite Hin.
  unfold consulted_type in Hv. by rewrite Hv.
Qed.

(** Which column the type check reads: [type] when it is a header,
    else [Type]. *)
Lemma consulted_type_lower row v :
  row !! Some "type" = Some v → consulted_type row = v.
Proof. intros H. unfold consulted_type, dict_get. by rewrite H. Qed.

Lemma consulted_type_upper row v :
  row !! Some "type" = None → row !! Some "Type" = Some v →
  consulted_type row = v.
Proof. intros H1 H2. unfold consulted_type, dict_get. by rewrite H1, H2. Qed.

(** *** The date checks *)

Lemma check_date_value_blank idx k v st :
  blank v → check_date_value idx k v st = (inl tt, st).
Proof.
  intros [->|(s & -> & Hs)]; [reflexivity|].
  unfold check_date_value. simpl.
  destruct (PyStr.truthy s); [|reflexivity].
  unfold mbind, M_bind, mret, M_ret. simpl. by rewrite Hs.
Qed.

Lemma check_date_value_text idx k s st :
  PyStr.strip s ≠ "" →
  check_date_value idx k (PyStr s) st =
    (inl tt, if (validate_date s).1 then st
             else with_error st (invalid_date_msg idx s k)).
Proof.
  intros Hs. unfold check_date_value. simpl.
  assert (PyStr.truthy s = true) as ->.
  { destruct s; [|reflexivity]. by destruct Hs. }
  unfold mbind, M_bind, mret, M_ret. simpl.
  assert (PyStr.truthy (PyStr.strip s) = true) as ->.
  { destruct (PyStr.strip s); [by destruct Hs|reflexivity]. }
  by destruct (validate_date s) as [[] ?].
Qed.

(** The options before the first header name of the row are skipped,
    the options after it are never looked at. *)
Lemma check_date_options_first idx row (pre' post' : list string) k v :
  (∀ b, b ∈ pre' → row !! Some b = None) →
  row !! Some k = Some v →
  check_date_options idx row (pre' ++ k :: post') = check_date_value idx k v.
Proof.
  intros Hpre Hk. induction pre' as [|b pre' IH]; simpl.
  - by rewrite Hk.
  - rewrite (Hpre b) by left. apply IH. intros b' Hb'. apply Hpre. by right.
Qed.

Lemma check_date_options_absent idx row (options : list string) :
  (∀ b, b ∈ options → row !! Some b = None) →
  check_date_options idx row options = mret tt.
Proof.
  intros H. induction options as [|b options IH]; simpl; [done|].
  rewrite (H b) by left. apply IH. intros b' Hb'. apply H. by right.
Qed.

(** *** The row loop *)

Lemma count_data_app pre post :
  count_data (pre ++ post) = count_data pre + count_data post.
Proof. induction pre as [|s pre IH]; simpl; [done|]. rewrite IH. lia. Qed.

Lemma count_data_nonneg reader : 0 ≤ count_data reader.
Proof. induction reader as [|s reader IH]; simpl; [done|]. destruct (is_data s); lia. Qed.

(** Scanning [pre ++ post] is scanning [pre], then [post] with the
    index moved by the rows of [pre]; an abort in [pre] ends it. *)
Lemma rows_loop_app headers pre post idx st :
  rows_loop headers (pre ++ post) idx st =
    match rows_loop headers pre idx st with
    | (inl _, st') => rows_loop headers post (idx + count_data pre) st'
    | (inr e, st') => (inr e, st')
    end.
Proof.
  revert idx st. induction pre as [|s pre IH]; intros idx st; simpl.
  - by rewrite Z.add_0_r.
  - destruct s as [[|f fs]|e]; simpl.
    + rewrite IH. done.
    + unfold mbind, M_bind. simpl.
      destruct (check_row idx _ _) as [[[]|e] st1]; [|done].
      rewrite IH. by replace (idx + 1 + count_data pre)
        with (idx + (1 + count_data pre)) by lia.
    + done.
Qed.

Lemma rows_loop_row_count headers reader idx st st' :
  rows_loop headers reader idx st = (inl tt, st') →
  row_count st' = row_count st + count_data reader
  ∧ errors st `prefix_of` errors st'.
Proof.
  revert idx st. induction reader as [|s reader IH]; intros idx st; simpl.
  - intros [= <-]. split; [lia|done].
  - destruct s as [[|f fs]|e]; simpl.
    + intros H. destruct (IH _ _ H). split; [lia|done].
    + unfold mbind, M_bind. simpl.
      destruct (check_row idx _ _) as [[[]|e] st1] eqn:E; [|done].
      intros H. destruct (IH _ _ H) as [Hc Hp].
      destruct (quiet_check_row _ _ _ _ _ E) as [Hc' Hp']. simpl in *.
      split; [lia|by etrans].
    + done.
Qed.

(** The row body run on a state. *)
Lemma rows_loop_row headers fields post idx st :
  fields ≠ [] →
  rows_loop headers (Yield fields :: post) idx st =
    match check_row idx (DictReader.make_row headers fields) (bump st) with
    | (inl _, st') => rows_loop headers post (idx + 1) st'
    | (inr e, st') => (inr e, st')
    end.
Proof. intros Hf. destruct fields as [|f fs]; [done|]. reflexivity. Qed.

Lemma rows_loop_raise headers e post idx st :
  rows_loop headers (Raise e :: post) idx st = (inr e, st).
Proof. reflexivity. Qed.

(** *** The whole function on a file with a header *)

Lemma validate_with_header headers reader :
  headers ≠ [] →
  validate_csv_file (open_ok (Yield headers :: reader)) =
    match rows_loop headers reader 2 st0 with
    | (inl _, st) => (errors st, [], row_count st)
    | (inr e, st) => ((errors st ++ [file_level_msg e])%list, [], row_count st)
    end.
Proof.
  intros Hh. destruct headers as [|h hs]; [done|].
  unfold validate_csv_file, try_block. simpl.
  unfold mbind, M_bind. fold st0.
  destruct (rows_loop (h :: hs) reader 2 st0) as [[[]|[m|m]] st]; reflexivity.
Qed.

Lemma rows_loop_monotone headers reader idx st r st' :
  rows_loop headers reader idx st = (r, st') →
  row_count st ≤ row_count st' ∧ errors st `prefix_of` errors st'.
Proof.
  revert idx st. induction reader as [|s reader IH]; intros idx st; simpl.
  - by intros [= <- <-].
  - destruct s as [[|f fs]|e]; simpl.
    + apply IH.
    + unfold mbind, M_bind. simpl.
      destruct (check_row idx _ _) as [[[]|e] st1] eqn:E;
        destruct (quiet_check_row _ _ _ _ _ E) as [Hc Hp]; simpl in Hc, Hp.
      * intros H. destruct (IH _ _ H) as [Hc' Hp'].
        split; [lia|by etrans].
      * intros [= <- <-]. split; [lia|done].
    + by intros [= <- <-].
Qed.

(** *** The errors of a row as a function of the row *)

Lemma add_errors_nil st : add_errors st [] = st.
Proof. destruct st. unfold add_errors. simpl. by rewrite app_nil_r. Qed.

Lemma add_errors_app st l1 l2 :
  add_errors (add_errors st l1) l2 = add_errors st (l1 ++ l2).
Proof. unfold add_errors. simpl. by rewrite app_assoc. Qed.

Lemma check_date_value_errors idx k v st :
  (v = PyNone ∨ ∃ s, v = PyStr s) →
  check_date_value idx k v st = (inl tt, add_errors st (date_error idx k v)).
Proof.
  intros [->|[s ->]]; [by rewrite add_errors_nil|]. simpl.
  destruct (PyStr.truthy (PyStr.strip s)) eqn:E.
  - rewrite check_date_value_text by (intros H; by rewrite H in E).
    simpl. destruct (validate_date s).1; simpl; [by rewrite add_errors_nil|done].
  - rewrite check_date_value_blank; [by rewrite add_errors_nil|].
    right. exists s. split; [done|]. by apply truthy_false.
Qed.

Lemma check_date_options_errors idx headers fields (options : list string) st :
  let row := DictReader.make_row headers fields in
  check_date_options idx row options st
  = (inl tt, add_errors st (group_errors idx row options)).
Proof.
  intros row. induction options as [|k options IH]; simpl.
  - by rewrite add_errors_nil.
  - destruct (row !! Some k) as [v|] eqn:E; [|exact IH].
    apply check_date_value_errors. by eapply make_row_values.
Qed.

Lemma check_date_fields_errors idx headers fields (groups : list (list string)) st :
  let row := DictReader.make_row headers fields in
  check_date_fields idx row groups st
  = (inl tt, add_errors st (flat_map (group_errors idx row) groups)).
Proof.
  intros row. revert st. induction groups as [|g groups IH]; intros st; simpl.
  - by rewrite add_errors_nil.
  - erewrite bind_inl by apply check_date_options_errors.
    rewrite IH. by rewrite add_errors_app.
Qed.

Lemma group_errors_first idx row (pre' post' : list string) k v :
  (∀ b, b ∈ pre' → row !! Some b = None) →
  row !! Some k = Some v →
  group_errors idx row (pre' ++ k :: post') = date_error idx k v.
Proof.
  intros Hpre Hk. induction pre' as [|b pre' IH]; simpl.
  - by rewrite Hk.
  - rewrite (Hpre b) by left. apply IH. intros b' Hb'. apply Hpre. by right.
Qed.

(** *** Results of a scan that is cut short *)

Lemma validate_scanned headers pre st1 :
  headers ≠ [] →
  rows_loop headers pre 2 st0 = (inl tt, st1) →
  validate_csv_file (open_ok (Yield headers :: pre))
  = (errors st1, [], count_data pre).
Proof.
  intros Hne Hpre.
  destruct (rows_loop_row_count _ _ _ _ _ Hpre) as [Hc _]. simpl in Hc.
  rewrite validate_with_header, Hpre by done. by rewrite Hc.
Qed.

Lemma validate_reader_raises headers pre post e st1 :
  headers ≠ [] →
  rows_loop headers pre 2 st0 = (inl tt, st1) →
  validate_csv_file (open_ok (Yield headers :: pre ++ Raise e :: post))
  = ((errors st1 ++ [file_level_msg e])%list, [], count_data pre).
Proof.
  intros Hne Hpre.
  destruct (rows_loop_row_count _ _ _ _ _ Hpre) as [Hc _]. simpl in Hc.
  rewrite validate_with_header, rows_loop_app, Hpre, rows_loop_raise by done.
  by rewrite Hc.
Qed.

Lemma validate_row_raises headers pre post fields e st1 st2 :
  headers ≠ [] →
  rows_loop headers pre 2 st0 = (inl tt, st1) →
  fields ≠ [] →
  check_row (2 + count_data pre) (DictReader.make_row headers fields) (bump st1)
  = (inr e, st2) →
  validate_csv_file (open_ok (Yield headers :: pre ++ Yield fields :: post))
  = ((errors st2 ++ [file_level_msg e])%list, [], count_data pre + 1).
Proof.
  intros Hne Hpre Hf Hrow.
  destruct (rows_loop_row_count _ _ _ _ _ Hpre) as [Hc _]. simpl in Hc.
  rewrite validate_with_header, rows_loop_app, Hpre, rows_loop_row by done.
  rewrite Hrow. destruct (quiet_check_row _ _ _ _ _ Hrow) as [Hc2 _].
  simpl in Hc2. by rewrite Hc2, Hc.
Qed.

(** *** Every file gets a result *)

Lemma validate_total (f : file) :
  ∃ errs n, validate_csv_file f = (errs, [], n) ∧ 0 ≤ n.
Proof.
  destruct f as [e|reader].
  - destruct e; eexists _, 0; by split.
  - destruct reader as [|[headers|e] reader].
    + eexists _, 0; by split.
    + destruct headers as [|h hs]; [eexists _, 0; by split|].
      rewrite validate_with_header by done.
      destruct (rows_loop (h :: hs) reader 2 st0) as [[[]|e] st] eqn:E.
      * eexists _, _. split; [done|].
        apply rows_loop_row_count in E as [-> _].
        pose proof (count_data_nonneg reader). simpl. lia.
      * eexists _, _. split; [done|].
        by apply rows_loop_monotone in E as [? _].
    + destruct e; eexists _, 0; by split.
Qed.

End Validator.

(** * The Date Recognizer against its specification *)

(** C8. Each of the four sample texts is accepted, with the first of
    June 2025 as its date. *)
Theorem C8_accepted_examples :
  validate_date "2025-06-01" = (true, Some (mkdatetime 2025 6 1))
  ∧ validate_date "6/1/2025" = (true, Some (mkdatetime 2025 6 1))
  ∧ validate_date "06/01/2025" = (true, Some (mkdatetime 2025 6 1))
  ∧ validate_date "6-1-2025" = (true, Some (mkdatetime 2025 6 1)).
Proof. repeat split; vm_compute; reflexivity. Qed.

(** C10. The fourth entry of [DATE_FORMATS] raises on every text, the
    fifth repeats the second, and [validate_date] returns on every text
    what it returns with the first three entries alone. *)
Theorem C10_last_two_formats_idle (s : string) :
  strptime s "%-m/%-d/%Y" = None
  ∧ DATE_FORMATS !! 4%nat = DATE_FORMATS !! 1%nat
  ∧ validate_date s = validate_date_with (take 3 DATE_FORMATS) s.
Proof.
  split; [apply strptime_bad_directive|]. split; [reflexivity|].
  unfold validate_date, validate_date_with.
  destruct (_ || _); [reflexivity|]. apply try_formats_first_three.
Qed.

(** C7. A text that is empty or white space only is valid with no date;
    and such a value in the column that a date group consults appends
    no error and raises nothing, both in the check of the value and in
    the check of the whole group. *)
Theorem C7_blank_is_valid (s : string) (idx : Z) (headers fields : list string)
    (pre post : list string) (field_name : string) (st : state) :
  PyStr.strip s = "" →
  (∀ b, b ∈ pre → b ∉ headers) →
  DictReader.make_row headers fields !! Some field_name = Some (PyStr s) →
  validate_date s = (true, None)
  ∧ check_date_value idx field_name (PyStr s) st = (inl tt, st)
  ∧ check_date_options idx (DictReader.make_row headers fields)
      (pre ++ field_name :: post) st = (inl tt, st).
Proof.
  intros Hs Hpre Hk.
  assert (blank (PyStr s)) as Hb by (right; by exists s).
  split; [|split].
  - unfold validate_date. rewrite Hs. simpl. by rewrite orb_true_r.
  - by apply check_date_value_blank.
  - rewrite (check_date_options_first _ _ _ _ _ (PyStr s)); [|..|done].
    + by apply check_date_value_blank.
    + intros b Hin. apply make_row_absent. by apply Hpre.
Qed.

Lemma C7_blank_end_date :
  validate_date "   " = (true, None)
  ∧ check_date_options 2
      (DictReader.make_row ["Finish"; "Due Date"] ["   "; "soon"])
      ["end_date"; "End Date"; "Finish"; "end"; "Due Date"] st0 = (inl tt, st0).
Proof.
  destruct (C7_blank_is_valid "   " 2 ["Finish"; "Due Date"] ["   "; "soon"]
              ["end_date"; "End Date"] ["end"; "Due Date"] "Finish" st0)
    as (H1 & _ & H3).
  - vm_compute. reflexivity.
  - intros b Hb Hin. revert Hb.
    apply list_elem_of_In in Hin. simpl in Hin.
    destruct Hin as [<-|[<-|[]]]; intros Hb; apply list_elem_of_In in Hb;
      simpl in Hb; destruct Hb as [Hb|[Hb|[]]]; discriminate Hb.
  - vm_compute. reflexivity.
  - split; [exact H1|exact H3].
Defined.

(** C2. In a group of column names only the first name that is a header
    of the row is consulted: the group does what the check of that one
    value does.  When that value is missing, empty or white space only,
    the group appends no error, although a later name of the group may
    be a header with a bad value. *)
Theorem C2_first_alias_only (idx : Z) (headers fields : list string)
    (pre post : list string) (field_name : string) (st : state) :
  (∀ b, b ∈ pre → b ∉ headers) →
  field_name ∈ headers →
  let row := DictReader.make_row headers fields in
  ∃ v, row !! Some field_name = Some v
    ∧ check_date_options idx row (pre ++ field_name :: post) st
      = check_date_value idx field_name v st
    ∧ (blank v →
       check_date_options idx row (pre ++ field_name :: post) st = (inl tt, st)).
Proof.
  intros Hpre Hin row.
  destruct (proj2 (make_row_is_Some headers fields field_name) Hin) as [v Hv].
  exists v. split; [exact Hv|].
  assert (check_date_options idx row (pre ++ field_name :: post)
          = check_date_value idx field_name v) as Heq.
  { apply check_date_options_first; [|exact Hv].
    intros b Hb. apply make_row_absent. by apply Hpre. }
  split; [by rewrite Heq|].
  intros Hb. rewrite Heq. by apply check_date_value_blank.
Qed.

Lemma C2_no_fallback :
  ∃ v, DictReader.make_row ["Start Date"; "start"] [""; "junk"] !! Some "Start Date"
       = Some v
    ∧ check_date_options 2 (DictReader.make_row ["Start Date"; "start"] [""; "junk"])
        ["start_date"; "Start Date"; "Start"; "start"] st0
      = check_date_value 2 "Start Date" v st0
    ∧ (blank v →
       check_date_options 2 (DictReader.make_row ["Start Date"; "start"] [""; "junk"])
         ["start_date"; "Start Date"; "Start"; "start"] st0 = (inl tt, st0)).
Proof.
  apply (C2_first_alias_only 2 ["Start Date"; "start"] [""; "junk"]
           ["start_date"] ["Start"; "start"] "Start Date" st0).
  - intros b Hb Hin. apply list_elem_of_In in Hb. simpl in Hb.
    destruct Hb as [<-|[]]. apply list_elem_of_In in Hin. simpl in Hin.
    destruct Hin as [Hin|[Hin|[]]]; discriminate Hin.
  - apply list_elem_of_In. simpl. left. reflexivity.
Defined.

(** * The row checks of the File Validator *)

(** C4, as worded, fails: in a file with header [start_date,type] the
    record [13/45/2025] has a rejected start date but no type cell; the
    type check raises before the date checks and the only error is the
    message about the file. *)
Lemma C4_missing_type_counterexample : ¬ date_error_on_every_row.
Proof.
  intros H.
  specialize (H ["start_date"; "type"] [] [] ["13/45/2025"] []
                ["Start Date"; "Start"; "start"] "start_date" "13/45/2025" st0).
  assert (In (invalid_date_msg 2 "13/45/2025" "start_date")
             ["Unexpected error: 'NoneType' object has no attribute 'strip'"])
    as [Hin|[]].
  { apply H.
    - discriminate.
    - reflexivity.
    - left. reflexivity.
    - intros b [].
    - vm_compute. reflexivity.
    - vm_compute. discriminate.
    - vm_compute. reflexivity. }
  vm_compute in Hin. discriminate Hin.
Qed.

(** C4, amended. On a data record that the scan reaches and whose type
    check ends normally: when the first header name of a group of
    [date_fields] holds a text that is not blank and that
    [validate_date] rejects, the group appends exactly the one error
    [Row <n>: Invalid date format '<value>' in column '<name>'] with the
    raw value and that name, and ends normally; after the type check
    the row runs all three groups, each adding its own errors, and the
    scan goes on with the next record; the error is among the errors of
    the result.  A row with a bad [start_date] and a good [end_date] is
    flagged for [start_date] only. *)
Theorem C4_date_error_per_column (headers : list string) (pre post : list step)
    (fields : list string) (before after : list string)
    (field_name s : string) (st1 st2 : state) :
  let row := DictReader.make_row headers fields in
  let n := 2 + count_data pre in
  let msg := "Row " +:+ pretty n +:+ ": Invalid date format '" +:+ s
             +:+ "' in column '" +:+ field_name +:+ "'" in
  fields ≠ [] →
  rows_loop headers pre 2 st0 = (inl tt, st1) →
  check_type n row (bump st1) = (inl tt, st2) →
  In (before ++ field_name :: after)%list date_fields →
  (∀ b, In b before → b ∉ headers) →
  row !! Some field_name = Some (PyStr s) →
  PyStr.strip s ≠ "" →
  (validate_date s).1 = false →
  (∀ st, check_date_options n row (before ++ field_name :: after) st
         = (inl tt, with_error st msg))
  ∧ group_errors n row (before ++ field_name :: after) = [msg]
  ∧ rows_loop headers (pre ++ Yield fields :: post) 2 st0
    = rows_loop headers post (n + 1)
        (add_errors st2 (flat_map (group_errors n row) date_fields))
  ∧ In msg (validate_csv_file
              (open_ok (Yield headers :: pre ++ Yield fields :: post))).1.1
  ∧ validate_csv_file
      (open_ok [Yield ["type"; "start_date"; "end_date"];
                Yield ["task"; "13/45/2025"; "2025-06-05"]])
    = (["Row 2: Invalid date format '13/45/2025' in column 'start_date'"], [], 1).
Proof.
  intros row n msg Hf Hpre Htype Hgroup Hbefore Hcell Hs Hbad.
  assert (headers ≠ []) as Hne.
  { intros ->. unfold row in Hcell.
    assert (is_Some (DictReader.make_row [] fields !! Some field_name)) as Hsome
      by (rewrite Hcell; by eexists).
    apply make_row_is_Some in Hsome. by apply elem_of_nil in Hsome. }
  assert (∀ b, b ∈ before → row !! Some b = None) as Habsent.
  { intros b Hb. apply make_row_absent, Hbefore. by apply list_elem_of_In. }
  assert (group_errors n row (before ++ field_name :: after) = [msg]) as Hgrp.
  { rewrite (group_errors_first _ _ _ _ _ (PyStr s)) by done. simpl.
    assert (PyStr.truthy (PyStr.strip s) = true) as ->.
    { destruct (PyStr.strip s); [by destruct Hs|done]. }
    by rewrite Hbad. }
  assert (rows_loop headers (pre ++ Yield fields :: post) 2 st0
          = rows_loop headers post (n + 1)
              (add_errors st2 (flat_map (group_errors n row) date_fields)))
    as Hloop.
  { rewrite rows_loop_app, Hpre, rows_loop_row by done. fold n row.
    unfold check_row. erewrite bind_inl by exact Htype.
    unfold row. by rewrite check_date_fields_errors. }
  assert (In msg (flat_map (group_errors n row) date_fields)) as Hin.
  { apply in_flat_map. exists (before ++ field_name :: after)%list.
    split; [done|]. rewrite Hgrp. by left. }
  split; [|split; [done|split; [done|split]]].
  - intros st. unfold row. rewrite check_date_options_errors. fold row.
    by rewrite Hgrp.
  - rewrite validate_with_header, Hloop by done.
    destruct (rows_loop headers post (n + 1) _) as [r st3] eqn:E3.
    destruct (rows_loop_monotone _ _ _ _ _ _ E3) as [_ [k Hk]].
    simpl in Hk.
    assert (In msg (errors st3)) as Hin3.
    { rewrite Hk. apply in_app_iff. left. apply in_app_iff. by right. }
    destruct r as [[]|e]; simpl; [done|]. apply in_app_iff. by left.
  - vm_compute. reflexivity.
Qed.

Lemma C4_bad_start_good_end :
  In "Row 2: Invalid date format '13/45/2025' in column 'start_date'"
     (validate_csv_file
        (open_ok (Yield ["type"; "start_date"; "end_date"]
                  :: [] ++ Yield ["task"; "13/45/2025"; "2025-06-05"] :: []))).1.1.
Proof.
  refine (proj1 (proj2 (proj2 (proj2
    (C4_date_error_per_column ["type"; "start_date"; "end_date"] [] []
       ["task"; "13/45/2025"; "2025-06-05"] []
       ["Start Date"; "Start"; "start"] "start_date" "13/45/2025"
       st0 (bump st0) _ _ _ _ _ _ _ _))))).
  - discriminate.
  - reflexivity.
  - vm_compute. reflexivity.
  - left. reflexivity.
  - intros b [].
  - vm_compute. reflexivity.
  - vm_compute. discriminate.
  - vm_compute. reflexivity.
Defined.

(** C3, as worded, fails: with a blank line between the header and the
    row [sprint], the row lies on line 3 and is reported as row 2. *)
Lemma C3_line_number_counterexample : ¬ type_errors_numbered_by_line.
Proof.
  intros H.
  specialize (H [Yield ["type"]; Yield []; Yield ["sprint"]] ["type"] ["sprint"]
                2%nat "sprint").
  destruct H as [_ H]; try reflexivity.
  - left. by left.
  - lia.
  - assert (invalid_type_msg (line_of_record 2) "sprint"
            ∈ [invalid_type_msg 2 "sprint"]) as Hin.
    { apply H. split; [discriminate|]. by vm_compute. }
    apply list_elem_of_singleton in Hin. vm_compute in Hin. discriminate Hin.
Qed.

(** C3, amended. For a data record that the scan reaches, in a file
    whose header has [type] or [Type], and whose consulted type cell
    holds a text: the text is stripped and lower-cased; the type check
    appends exactly the message [Row <n>: Invalid type '<t>' (must be
    task/milestone/release/meeting)] for the normalised text [t] when
    [t] is not empty and not one of the four types, and appends nothing
    otherwise; [n] is 2 plus the number of non-blank data records
    before it; the scan goes on with the date checks of the row, and
    what the type check appended stays in the result. *)
Theorem C3_type_check_by_row (headers : list string) (pre post : list step)
    (fields : list string) (v : string) (st1 : state) :
  fields ≠ [] →
  "type" ∈ headers ∨ "Type" ∈ headers →
  rows_loop headers pre 2 st0 = (inl tt, st1) →
  consulted_type (DictReader.make_row headers fields) = PyStr v →
  let row := DictReader.make_row headers fields in
  let n := 2 + count_data pre in
  let t := PyStr.lower (PyStr.strip v) in
  let st2 := if PyStr.truthy t && negb (bool_decide (t ∈ VALID_TYPES))
             then with_error (bump st1) (invalid_type_msg n t)
             else bump st1 in
  check_type n row (bump st1) = (inl tt, st2)
  ∧ rows_loop headers (pre ++ Yield fields :: post) 2 st0
    = (check_date_fields n row date_fields ;; rows_loop headers post (n + 1)) st2
  ∧ errors st2 `prefix_of`
      (validate_csv_file (open_ok (Yield headers :: pre ++ Yield fields :: post))).1.1.
Proof.
  intros Hf Hh Hpre Hv row n t st2.
  assert (headers ≠ []) as Hne.
  { intros ->. destruct Hh as [Hh|Hh]; by apply elem_of_nil in Hh. }
  assert (check_type n row (bump st1) = (inl tt, st2)) as Ht.
  { apply check_type_text; [|exact Hv]. unfold row.
    rewrite !dict_in_make_row. apply orb_true_iff.
    destruct Hh; [left|right]; by apply bool_decide_eq_true. }
  assert (rows_loop headers (pre ++ Yield fields :: post) 2 st0
          = (check_date_fields n row date_fields ;; rows_loop headers post (n + 1)) st2)
    as Hloop.
  { rewrite rows_loop_app, Hpre, rows_loop_row by done. fold n row.
    unfold check_row. erewrite bind_inl by exact Ht. reflexivity. }
  split; [exact Ht|]. split; [exact Hloop|].
  rewrite validate_with_header, Hloop by done.
  unfold mbind, M_bind.
  destruct (check_date_fields n row date_fields st2) as [[[]|e] st3] eqn:E3;
    destruct (quiet_check_date_fields _ _ _ _ _ _ E3) as [_ Hp3].
  - destruct (rows_loop headers post (n + 1) st3) as [[[]|e] st4] eqn:E4;
      destruct (rows_loop_monotone _ _ _ _ _ _ E4) as [_ Hp4]; simpl.
    + by etrans.
    + apply prefix_app_r. by etrans.
  - simpl. by apply prefix_app_r.
Qed.

Lemma C3_sprint_after_blank_line :
  check_type 3
    (DictReader.make_row ["type"; "start_date"] ["Sprint "; "2025-06-01"])
    (bump (mkstate [] 1))
  = (inl tt, with_error (bump (mkstate [] 1)) (invalid_type_msg 3 "sprint")).
Proof.
  refine (proj1 (C3_type_check_by_row ["type"; "start_date"]
            [Yield []; Yield ["Task"; "6/1/2025"]; Yield []] []
            ["Sprint "; "2025-06-01"] "Sprint " (mkstate [] 1) _ _ _ _)).
  - discriminate.
  - left. apply list_elem_of_In. simpl. left. reflexivity.
  - vm_compute. reflexivity.
  - vm_compute. reflexivity.
Defined.

(** * File-level failures *)

(** C5. Whatever is raised while a file is validated ends in a result.
    A failure of [open], of the header read, of a later read, or of a
    row check is turned into one message appended after the errors
    collected so far; the records after the failure do not matter; the
    count is that of the rows counted before the failure: the result
    is the one of the file cut before the failing record, with the
    message added.  Warnings are empty and the count is not negative
    for every file. *)
Theorem C5_failures_become_messages (headers : list string)
    (pre post : list step) (e : exn) (st1 : state) :
  headers ≠ [] →
  rows_loop headers pre 2 st0 = (inl tt, st1) →
  validate_csv_file (open_raises e) = ([file_level_msg e], [], 0)
  ∧ validate_csv_file (open_ok (Raise e :: post)) = ([file_level_msg e], [], 0)
  ∧ validate_csv_file (open_ok (Yield headers :: pre))
    = (errors st1, [], count_data pre)
  ∧ validate_csv_file (open_ok (Yield headers :: pre ++ Raise e :: post))
    = ((errors st1 ++ [file_level_msg e])%list, [], count_data pre)
  ∧ (∀ (fields : list string) (st2 : state),
       fields ≠ [] →
       check_row (2 + count_data pre) (DictReader.make_row headers fields) (bump st1)
       = (inr e, st2) →
       validate_csv_file (open_ok (Yield headers :: pre ++ Yield fields :: post))
       = ((errors st2 ++ [file_level_msg e])%list, [], count_data pre + 1))
  ∧ (∀ f : file, ∃ errs n, validate_csv_file f = (errs, [], n) ∧ 0 ≤ n).
Proof.
  intros Hne Hpre.
  split; [by destruct e|]. split; [by destruct e|]. split; [|split; [|split]].
  - by apply validate_scanned.
  - by apply validate_reader_raises.
  - intros fields st2 Hf Hrow. by apply (validate_row_raises _ _ _ _ _ st1).
  - apply validate_total.
Qed.

Lemma C5_parse_error_after_two_rows :
  validate_csv_file
    (open_ok (Yield ["type"; "Date"]
              :: [Yield ["task"; "6/1/2025"]; Yield ["epic"; "soon"]]
              ++ Raise (csv_Error "line contains NUL") :: [Yield ["sprint"; ""]]))
  = ([invalid_type_msg 3 "epic"; invalid_date_msg 3 "soon" "Date";
      "CSV parsing error: line contains NUL"], [], 2).
Proof.
  refine (proj1 (proj2 (proj2 (proj2
    (C5_failures_become_messages ["type"; "Date"]
       [Yield ["task"; "6/1/2025"]; Yield ["epic"; "soon"]]
       [Yield ["sprint"; ""]] (csv_Error "line contains NUL")
       (mkstate [invalid_type_msg 3 "epic"; invalid_date_msg 3 "soon" "Date"] 2)
       _ _))))).
  - discriminate.
  - vm_compute. reflexivity.
Defined.

(** C6. In a file whose header has [type] (or [Type] and no [type]) at
    a position that a non-blank record is too short to reach, the type
    cell of the row is [None] and the type check raises on it.  When
    the scan reaches that record the result ends with the one message
    [Unexpected error: 'NoneType' object has no attribute 'strip'],
    after the errors of the rows before it; there is no error of that
    row, the records after it do not matter, and the count includes
    the row. *)
Theorem C6_missing_type_cell_aborts (h1 h2 : list string) (c : string)
    (pre post : list step) (fields : list string) (st1 : state) :
  let headers := (h1 ++ c :: h2)%list in
  c = "type" ∨ (c = "Type" ∧ "type" ∉ headers) →
  fields ≠ [] →
  (length fields ≤ length h1)%nat →
  rows_loop headers pre 2 st0 = (inl tt, st1) →
  consulted_type (DictReader.make_row headers fields) = PyNone
  ∧ check_row (2 + count_data pre) (DictReader.make_row headers fields) (bump st1)
    = (inr (Exception "'NoneType' object has no attribute 'strip'"), bump st1)
  ∧ validate_csv_file (open_ok (Yield headers :: pre))
    = (errors st1, [], count_data pre)
  ∧ validate_csv_file (open_ok (Yield headers :: pre ++ Yield fields :: post))
    = ((errors st1
        ++ ["Unexpected error: 'NoneType' object has no attribute 'strip'"])%list,
       [], count_data pre + 1).
Proof.
  intros headers Hc Hf Hlen Hpre.
  assert (headers ≠ []) as Hne by (unfold headers; by destruct h1).
  assert (DictReader.make_row headers fields !! Some c = Some PyNone) as Hnone
    by (by apply make_row_missing).
  assert (consulted_type (DictReader.make_row headers fields) = PyNone) as Hv.
  { destruct Hc as [->|[-> Hno]].
    - by apply consulted_type_lower.
    - apply consulted_type_upper; [|exact Hnone]. by apply make_row_absent. }
  assert (check_row (2 + count_data pre) (DictReader.make_row headers fields)
            (bump st1)
          = (inr (Exception "'NoneType' object has no attribute 'strip'"), bump st1))
    as Hrow.
  { unfold check_row. apply bind_inr. apply check_type_none; [|exact Hv].
    rewrite !dict_in_make_row. apply orb_true_iff.
    destruct Hc as [->|[-> _]]; [left|right]; apply bool_decide_eq_true;
      unfold headers; apply elem_of_app; right; left. }
  split; [exact Hv|]. split; [exact Hrow|].
  split; [by apply validate_scanned|].
  by rewrite (validate_row_raises _ _ _ _ _ _ _ Hne Hpre Hf Hrow).
Qed.

Lemma C6_short_row_after_good_row :
  validate_csv_file
    (open_ok (Yield (["start_date"] ++ "type" :: ["end_date"])
              :: [Yield ["13/45/2025"; "task"; ""]]
              ++ Yield ["2025-06-01"] :: [Yield ["x"; "sprint"; "y"]]))
  = ([invalid_date_msg 2 "13/45/2025" "start_date";
      "Unexpected error: 'NoneType' object has no attribute 'strip'"], [], 2).
Proof.
  refine (proj2 (proj2 (proj2
    (C6_missing_type_cell_aborts ["start_date"] ["end_date"] "type"
       [Yield ["13/45/2025"; "task"; ""]] [Yield ["x"; "sprint"; "y"]]
       ["2025-06-01"]
       (mkstate [invalid_date_msg 2 "13/45/2025" "start_date"] 1) _ _ _ _)))).
  - left. reflexivity.
  - discriminate.
  - simpl. lia.
  - vm_compute. reflexivity.
Defined.

(** C9. A file whose reader is exhausted at once (the empty file) or
    whose first record is blank has no header: the result is the single
    error [No headers found], no warning and count 0, whatever follows
    the blank record.  A file with a header record and nothing else has
    no error and count 0. *)
Theorem C9_no_header_and_header_only (headers : list string) (rest : list step) :
  headers ≠ [] →
  validate_csv_file (open_ok []) = (["No headers found"], [], 0)
  ∧ validate_csv_file (open_ok (Yield [] :: rest)) = (["No headers found"], [], 0)
  ∧ validate_csv_file (open_ok [Yield headers]) = ([], [], 0).
Proof.
  intros Hne. split; [reflexivity|]. split; [reflexivity|].
  by rewrite validate_with_header.
Qed.

Lemma C9_empty_blank_and_header_only :
  validate_csv_file (open_ok []) = (["No headers found"], [], 0)
  ∧ validate_csv_file (open_ok (Yield [] :: [Yield ["type"]; Yield ["sprint"]]))
    = (["No headers found"], [], 0)
  ∧ validate_csv_file (open_ok [Yield ["type"; "start_date"; "end_date"]])
    = ([], [], 0).
Proof.
  apply (C9_no_header_and_header_only ["type"; "start_date"; "end_date"]
           [Yield ["type"]; Yield ["sprint"]]).
  discriminate.
Defined.

(** * Worked examples *)

(** How [strptime] reads the fields: month and day may be written
    with one digit, the day also with a leading blank; the year has
    four digits and is not 0; the day must exist in its month. *)
Example field_grammar :
  map (fun s => (validate_date s).1)
      ["2025-6-1"; "06/ 1/2025"; "2024-02-29";
       "2025-02-29"; "0000-01-01"; "2025-06-01x"; "25-06-01"]
  = [true; true; true; false; false; false; false].
Proof. vm_compute. reflexivity. Qed.

(** The type check ignores case: the sample row of the specification
    has no error. *)
Example capitalised_type_row :
  validate_csv_file
    (open_ok [Yield ["type"; "start_date"; "end_date"];
              Yield ["Task"; "2025-06-01"; "2025-06-05"]])
  = ([], [], 1).
Proof. vm_compute. reflexivity. Qed.

(** An unknown type on the first data row is reported once, as row 2. *)
Example sprint_row :
  validate_csv_file
    (open_ok [Yield ["type"; "start_date"; "end_date"];
              Yield ["sprint"; "2025-06-01"; "2025-06-05"]])
  = (["Row 2: Invalid type 'sprint' (must be task/milestone/release/meeting)"],
     [], 1).
Proof. vm_compute. reflexivity. Qed.

(** A present but empty first alias hides a bad later alias. *)
Example empty_first_alias :
  validate_csv_file
    (open_ok [Yield ["Start Date"; "start"]; Yield [""; "junk"]])
  = ([], [], 1).
Proof. vm_compute. reflexivity. Qed.


(** * Further properties of the Date Recognizer *)

Section AcceptedTexts.

Import Strptime.

Lemma append_cons (x : ascii) (a b : string) :
  String x a +:+ b = String x (a +:+ b).
Proof. reflexivity. Qed.

Lemma length_append (a b : string) :
  String.length (a +:+ b) = (String.length a + String.length b)%nat.
Proof.
  induction a as [|c a IH]; [done|]. rewrite append_cons. simpl. by rewrite IH.
Qed.

Lemma append_assoc (a b c : string) : (a +:+ b) +:+ c = a +:+ (b +:+ c).
Proof. induction a as [|x a IH]; [done|]. rewrite !append_cons. by rewrite IH. Qed.

Lemma append_empty_r (a : string) : a +:+ "" = a.
Proof. induction a as [|x a IH]; [done|]. rewrite append_cons. by rewrite IH. Qed.

Lemma string_forall_append P (a b : string) :
  string_forall P (a +:+ b) = string_forall P a && string_forall P b.
Proof.
  induction a as [|x a IH]; [done|]. rewrite append_cons. simpl. rewrite IH.
  by rewrite andb_assoc.
Qed.

(** What the matcher returns is a split of the text, within the
    length bounds of the expression and made of its characters. *)
Lemma rx_sound P (r : regex) (s t rest : string) :
  In (t, rest) (rx r s) →
  s = t +:+ rest
  ∧ (min_len r ≤ String.length t ≤ max_len r)%nat
  ∧ (regex_chars P r → string_forall P t = true).
Proof.
  revert s t rest. induction r as [c|lo hi| |r1 IH1 r2 IH2|r1 IH1 r2 IH2];
    intros s t rest; simpl.
  - destruct s as [|c' s']; [done|].
    destruct (Ascii.eqb c c') eqn:E; [|done]. apply Ascii.eqb_eq in E as ->.
    intros [[= <- <-]|[]]. simpl. split; [done|]. split; [lia|].
    intros ->. done.
  - destruct s as [|c' s']; [done|].
    destruct (in_range lo hi c') eqn:E; [|done].
    intros [[= <- <-]|[]]. simpl. split; [done|]. split; [lia|].
    intros H. by rewrite (H _ E).
  - destruct s as [|c' s']; [done|].
    destruct (PyStr.isdigit c') eqn:E; [|done].
    intros [[= <- <-]|[]]. simpl. split; [done|]. split; [lia|].
    intros H. by rewrite (H _ E).
  - intros H. apply in_flat_map in H as ([t1 rest1] & H1 & H2).
    apply in_map_iff in H2 as ([t2 rest2] & [= <- <-] & H2). simpl in *.
    destruct (IH1 _ _ _ H1) as (-> & Hl1 & Hc1).
    destruct (IH2 _ _ _ H2) as (-> & Hl2 & Hc2).
    split; [by rewrite append_assoc|]. rewrite length_append.
    split; [lia|]. intros [Hp1 Hp2]. rewrite string_forall_append.
    by rewrite Hc1, Hc2.
  - intros H. apply in_app_iff in H as [H|H].
    + destruct (IH1 _ _ _ H) as (-> & Hl & Hc). split; [done|].
      split; [lia|]. intros [Hp _]. auto.
    + destruct (IH2 _ _ _ H) as (-> & Hl & Hc). split; [done|].
      split; [lia|]. intros [_ Hp]. auto.
Qed.

Lemma match_items_sound P (its : list item) (s rest : string) (f0 f : found) :
  In (f, rest) (match_items its s f0) →
  ∃ t, s = t +:+ rest
    ∧ (items_min its ≤ String.length t ≤ items_max its)%nat
    ∧ (items_chars P its → string_forall P t = true).
Proof.
  revert s f0. induction its as [|it its IH]; intros s f0; simpl.
  - intros [[= <- <-]|[]]. exists "". split; [done|]. split; [simpl; lia|done].
  - intros H.
    assert (∃ t1 rest1 f1, In (t1, rest1) (rx (item_regex it) s)
                           ∧ In (f, rest) (match_items its rest1 f1))
      as (t1 & rest1 & f1 & H1 & H2).
    { destruct it as [d|c]; apply in_flat_map in H as ([t1 rest1] & H1 & H2);
        eauto 6. }
    destruct (rx_sound P _ _ _ _ H1) as (-> & Hl1 & Hc1).
    destruct (IH _ _ H2) as (t2 & -> & Hl2 & Hc2).
    exists (t1 +:+ t2). split; [by rewrite append_assoc|].
    rewrite length_append. split; [lia|].
    intros Hall. apply Forall_cons in Hall as [Hit Hits].
    rewrite string_forall_append. by rewrite Hc1, Hc2.
Qed.

(** A successful [parse] consumed the whole text. *)
Lemma parse_sound P (its : list item) (s : string) (g : found) (d : datetime) :
  parse its s = Some (g, d) →
  (items_min its ≤ String.length s ≤ items_max its)%nat
  ∧ (items_chars P its → string_forall P s = true)
  ∧ datetime_date (group_int 1900 (found_Y g)) (group_int 1 (found_m g))
                  (group_int 1 (found_d g)) = Some d.
Proof.
  unfold parse, re_match.
  destruct (match_items its s no_groups) as [|[f rest] l] eqn:E; simpl; [done|].
  destruct rest as [|c rest]; simpl; [|done].
  destruct (datetime_date _ _ _) as [d'|] eqn:Ed; simpl; [|done].
  intros [= <- <-].
  assert (In (f, "") (match_items its s no_groups)) as Hin by (rewrite E; by left).
  destruct (match_items_sound P _ _ _ _ _ Hin) as (t & -> & Hl & Hc).
  rewrite append_empty_r. done.
Qed.

Lemma datetime_date_bounds (y m d : Z) (dt : datetime) :
  datetime_date y m d = Some dt →
  1 ≤ dt_year dt ≤ 9999 ∧ 1 ≤ dt_month dt ≤ 12
  ∧ 1 ≤ dt_day dt ≤ days_in_month (dt_year dt) (dt_month dt).
Proof.
  unfold datetime_date. destruct (_ && _) eqn:E; [|done]. intros [= <-]. simpl.
  repeat (apply andb_true_iff in E as [E ?]). lia.
Qed.

Lemma digit_range_chars (lo hi : ascii) :
  48 ≤ PyStr.ord lo → PyStr.ord hi ≤ 57 →
  ∀ c, in_range lo hi c = true → date_char c = true.
Proof.
  intros Hlo Hhi c H. unfold in_range in H. apply andb_true_iff in H as [H1 H2].
  unfold date_char, PyStr.isdigit.
  replace ((48 <=? PyStr.ord c) && (PyStr.ord c <=? 57)) with true; [done|].
  symmetry. apply andb_true_iff. lia.
Qed.

Lemma layout_chars (f : Compiled.format) :
  items_chars date_char (Compiled.layout f).
Proof.
  assert (∀ c, PyStr.isdigit c = true → date_char c = true) as Hd.
  { intros c H. unfold date_char. by rewrite H. }
  assert (∀ d, regex_chars date_char (directive_regex d)) as Hdir.
  { intros []; simpl; repeat split;
      try done; try (apply digit_range_chars; by vm_compute). }
  destruct f; unfold items_chars, Compiled.layout;
    repeat (apply Forall_cons; split); try apply Forall_nil;
    try apply Hdir; done.
Qed.

Lemma layout_lengths (f : Compiled.format) :
  items_min (Compiled.layout f) = 8%nat ∧ items_max (Compiled.layout f) = 10%nat.
Proof. by destruct f. Qed.

(** An accepted text comes from one of the layouts. *)
Lemma validate_date_accepts (s : string) (d : datetime) :
  validate_date s = (true, Some d) →
  ∃ f g, parse (Compiled.layout f) (PyStr.strip s) = Some (g, d).
Proof.
  unfold validate_date. destruct (_ || _); [done|].
  rewrite try_formats_layouts.
  destruct (parse (Compiled.layout Compiled.ISO) (PyStr.strip s))
    as [[g1 d1]|] eqn:E1; cbn [fmap option_fmap option_map snd].
  { intros [= ->]. by exists Compiled.ISO, g1. }
  destruct (parse (Compiled.layout Compiled.Slash) (PyStr.strip s))
    as [[g2 d2]|] eqn:E2; cbn [fmap option_fmap option_map snd].
  { intros [= ->]. by exists Compiled.Slash, g2. }
  destruct (parse (Compiled.layout Compiled.Dash) (PyStr.strip s))
    as [[g3 d3]|] eqn:E3; cbn [fmap option_fmap option_map snd]; [|done].
  intros [= ->]. by exists Compiled.Dash, g3.
Qed.

End AcceptedTexts.

(** * The texts the Date Recognizer accepts *)

Section Grammar.

Import Strptime.

Lemma ord_inj (a b : ascii) : PyStr.ord a = PyStr.ord b → a = b.
Proof.
  unfold PyStr.ord. intros H. apply N2Z.inj in H.
  rewrite <- (ascii_N_embedding a), <- (ascii_N_embedding b). by rewrite H.
Qed.

Lemma ascii_eqb_ord (c a : ascii) :
  Ascii.eqb c a = (PyStr.ord c =? PyStr.ord a).
Proof.
  destruct (Ascii.eqb_spec c a) as [->|Hne].
  - by rewrite Z.eqb_refl.
  - symmetry. apply Z.eqb_neq. intros H. by apply Hne, ord_inj.
Qed.

Lemma append_one (a : ascii) (t : string) : String a "" +:+ t = String a t.
Proof. reflexivity. Qed.

(** Code points of literal characters, as numbers. *)
Ltac ords :=
  repeat match goal with
  | |- context [PyStr.ord (Ascii ?a ?b ?c ?d ?e ?f ?g ?h)] =>
      let v := eval vm_compute in (PyStr.ord (Ascii a b c d e f g h)) in
      change (PyStr.ord (Ascii a b c d e f g h)) with v
  | H : context [PyStr.ord (Ascii ?a ?b ?c ?d ?e ?f ?g ?h)] |- _ =>
      let v := eval vm_compute in (PyStr.ord (Ascii a b c d e f g h)) in
      change (PyStr.ord (Ascii a b c d e f g h)) with v in H
  end.

(** The tests on characters, as comparisons of code points. *)
Ltac as_ords :=
  unfold field, Written.day, Written.month, Written.number, Written.year,
    Written.digit, Written.value, in_range, PyStr.isdigit, PyStr.isspace,
    PyStr.digit_val in *;
  rewrite ?ascii_eqb_ord in *; ords.

(** Case analysis on every test, dropping the impossible cases. *)
Ltac tests :=
  repeat (match goal with
          | H : is_Some None |- _ => by apply is_Some_None in H
          | H : In _ [] |- _ => destruct H
          | H : In _ (_ :: _) |- _ => destruct H as [H|H]
          | H : (_, _) = (_, _) |- _ => injection H as <- <-
          | H : context [if ?c then _ else _] |- _ =>
              destruct c eqn:?; try (exfalso; lia)
          | |- context [if ?c then _ else _] =>
              destruct c eqn:?; try (exfalso; lia)
          end;
          cbn [flat_map map app fst snd head] in *;
          rewrite ?append_one in *).

(** What a directive matches at the start of a text: the splits of
    the text whose first part is a text of its field. *)
Lemma field_matches (d : directive) (s t r : string) :
  In (t, r) (rx (directive_regex d) s) ↔ s = t +:+ r ∧ is_Some (field d t).
Proof.
  split.
  - intros H. split; [by eapply (rx_sound (λ _, true)), H|].
    destruct d; [destruct s as [|a [|b [|c [|e s]]]]|destruct s as [|a [|b s]]..];
      cbn [rx directive_regex re_Y re_m re_d flat_map map app fst snd] in H;
      try done; as_ords; tests; cbn; as_ords; tests;
      first [by eexists | exfalso; lia].
  - intros [-> H].
    destruct d; destruct t as [|a [|b [|c [|e [|g t]]]]];
      try (by apply is_Some_None in H);
      cbn [rx directive_regex re_Y re_m re_d flat_map map app fst snd];
      rewrite ?append_cons; change ("" +:+ r) with r;
      cbn [rx directive_regex re_Y re_m re_d flat_map map app fst snd];
      cbn in H; as_ords; tests; rewrite ?in_app_iff; simpl; auto 10.
Qed.


(** The first match of a directive on a text of its field is the
    whole text. *)
Lemma field_first (d : directive) (t : string) :
  is_Some (field d t) → head (rx (directive_regex d) t) = Some (t, "").
Proof.
  intros H.
  destruct d; destruct t as [|a [|b [|c [|e [|g t]]]]];
    try (by apply is_Some_None in H);
    cbn [rx directive_regex re_Y re_m re_d flat_map map app fst snd];
    cbn in H; as_ords; tests; first [reflexivity | exfalso; lia].
Qed.

(** A separator of the formats: the hyphen or the slash. *)
Lemma split_at_sound (c : ascii) (s t r : string) :
  split_at c s = Some (t, r) → s = t +:+ String c r.
Proof.
  revert t. induction s as [|x s IH]; intros t; simpl; [done|].
  destruct (Ascii.eqb_spec x c) as [->|Hne].
  - by intros [= <- <-].
  - destruct (split_at c s) as [[a b]|]; [|done].
    intros [= <- <-]. rewrite append_cons. by rewrite (IH a).
Qed.

(** The text of a field holds no separator, so a field followed by a
    separator is cut off there. *)
Lemma field_split (d : directive) (c : ascii) (t r : string) :
  c = "-"%char ∨ c = "/"%char → is_Some (field d t) →
  split_at c (t +:+ String c r) = Some (t, r).
Proof.
  intros Hc H.
  assert (PyStr.ord c = 45 ∨ PyStr.ord c = 47) as Hord
    by (destruct Hc as [->| ->]; [by left|by right]).
  clear Hc.
  destruct d; destruct t as [|a [|b [|e [|g [|h t]]]]];
    try (by apply is_Some_None in H);
    rewrite ?append_cons; change ("" +:+ String c r) with (String c r);
    cbn [split_at];
    cbn in H; as_ords; tests; first [reflexivity | exfalso; lia].
Qed.

(** [int] of the text of a field is the number the field stands for. *)
Lemma field_int (d : directive) (t : string) (v : Z) :
  field d t = Some v → PyStr.int t = v.
Proof.
  intros H.
  destruct d; destruct t as [|a [|b [|e [|g [|h t]]]]]; try done;
    unfold PyStr.int, PyStr.strip;
    cbn [PyStr.lstrip PyStr.rstrip PyStr.int_digits];
    cbn in H; as_ords; tests; try done;
    cbn [PyStr.lstrip PyStr.rstrip PyStr.int_digits];
    as_ords; tests;
    cbn [PyStr.lstrip PyStr.rstrip PyStr.int_digits];
    try (exfalso; lia);
    injection H as <-; unfold PyStr.digit_val; lia.
Qed.

Lemma year_range (t : string) (y : Z) : Written.year t = Some y → 0 ≤ y ≤ 9999.
Proof.
  destruct t as [|a [|b [|e [|g [|h t]]]]]; try done.
  cbn. as_ords. tests; [|done]. intros [= <-]. lia.
Qed.

Lemma number_range (hi : Z) (t : string) (v : Z) :
  9 ≤ hi → Written.number hi t = Some v → 1 ≤ v ≤ hi.
Proof.
  intros Hhi. destruct t as [|a [|b [|e t]]]; try done;
    cbn; as_ords; tests; try done; intros [= <-]; lia.
Qed.

Lemma day_range (t : string) (v : Z) : Written.day t = Some v → 1 ≤ v ≤ 31.
Proof.
  destruct t as [|a [|b [|e t]]]; try done;
    cbn; as_ords; tests; try done; intros [= <-]; lia.
Qed.

Lemma leap_is_leap (y : Z) : Written.leap y = is_leap y.
Proof.
  unfold Written.leap, is_leap.
  destruct (y mod 400 =? 0) eqn:E400, (y mod 100 =? 0) eqn:E100,
    (y mod 4 =? 0) eqn:E4; try reflexivity; exfalso;
    rewrite ?Z.eqb_eq, ?Z.eqb_neq in *; Z.div_mod_to_equations; lia.
Qed.

Lemma month_days_days_in_month (y m : Z) :
  1 ≤ m ≤ 12 → Written.month_days y m = days_in_month y m.
Proof.
  intros Hm. unfold days_in_month. rewrite <- leap_is_leap.
  assert (m = 1 ∨ m = 2 ∨ m = 3 ∨ m = 4 ∨ m = 5 ∨ m = 6 ∨ m = 7 ∨ m = 8
          ∨ m = 9 ∨ m = 10 ∨ m = 11 ∨ m = 12) as H by lia.
  repeat destruct H as [->|H]; try subst m; reflexivity.
Qed.

(** The date of the fields, once each is in its range. *)
Lemma date_datetime_date (y m d : Z) :
  0 ≤ y ≤ 9999 → 1 ≤ m ≤ 12 → 1 ≤ d ≤ 31 →
  datetime_date y m d = Written.date y m d.
Proof.
  intros Hy Hm Hd. unfold datetime_date, Written.date.
  rewrite month_days_days_in_month by done.
  generalize (days_in_month y m). intros n.
  repeat match goal with
         | |- context [if ?c then _ else _] => destruct c eqn:?
         end; try reflexivity; exfalso; lia.
Qed.


(** *** First matches *)

Lemma flat_map_nil {A B} (g : A → list B) (l : list A) :
  (∀ b, In b l → g b = []) → flat_map g l = [].
Proof.
  induction l as [|x l IH]; intros H; simpl; [done|].
  rewrite (H x) by (by left). apply IH. intros b Hb. apply H. by right.
Qed.

(** When one candidate only can go on, the first result is its first. *)
Lemma head_flat_map_unique {A B} (g : A → list B) (l : list A) (a : A) :
  In a l → (∀ b, In b l → g b ≠ [] → b = a) →
  head (flat_map g l) = head (g a).
Proof.
  induction l as [|x l IH]; intros Ha Hu; [destruct Ha|]. simpl.
  destruct (g x) as [|y ys] eqn:Ex.
  - simpl. destruct Ha as [->|Ha].
    + rewrite Ex. rewrite flat_map_nil; [done|].
      intros b Hb. destruct (g b) as [|z zs] eqn:Eb; [done|].
      rewrite (Hu b) in Eb; [congruence|by right|by rewrite Eb].
    + apply IH; [done|]. intros b Hb. apply Hu. by right.
  - rewrite <- (Hu x); [by rewrite Ex|by left|by rewrite Ex].
Qed.

(** A field and its separator: the text is cut at the first
    separator, and what is before it must be a text of the field. *)
Lemma match_field_then_separator (d : directive) (c : ascii) (its : list item)
    (s : string) (f : found) :
  c = "-"%char ∨ c = "/"%char →
  head (match_items (Group d :: Literal c :: its) s f)
  = match split_at c s with
    | Some (t, r) =>
        match field d t with
        | Some _ => head (match_items its r (set_group d t f))
        | None => None
        end
    | None => None
    end.
Proof.
  intros Hc. cbn [match_items].
  set (g := λ m : string * string,
         flat_map (λ m' : string * string,
                     match_items its m'.2 (set_group d m.1 f))
                  (rx (Chr c) m.2)).
  assert (∀ t r0, g (t, r0) ≠ [] → ∃ r, r0 = String c r
            ∧ g (t, r0) = match_items its r (set_group d t f)) as Hg.
  { intros t r0. unfold g. cbn [rx fst snd]. destruct r0 as [|c' r]; [done|].
    destruct (Ascii.eqb_spec c c') as [<-|Hne]; [|done].
    intros _. exists r. split; [done|]. simpl. by rewrite app_nil_r. }
  assert (∀ t r0, In (t, r0) (rx (directive_regex d) s) → g (t, r0) ≠ [] →
            ∃ r, r0 = String c r ∧ split_at c s = Some (t, r)
                 ∧ is_Some (field d t)
                 ∧ g (t, r0) = match_items its r (set_group d t f)) as Hin.
  { intros t r0 Hm Hne. destruct (Hg _ _ Hne) as (r & -> & Eg).
    apply field_matches in Hm as [-> Hf]. exists r.
    split; [done|]. split; [by apply (field_split d)|done]. }
  destruct (split_at c s) as [[t r]|] eqn:Es.
  - destruct (field d t) as [v|] eqn:Ef.
    + assert (In (t, String c r) (rx (directive_regex d) s)) as Hm.
      { apply field_matches. split; [by apply split_at_sound|].
        rewrite Ef. by eexists. }
      rewrite (head_flat_map_unique g _ (t, String c r)); [|done|].
      * unfold g. cbn [rx fst snd]. rewrite Ascii.eqb_refl. simpl.
        by rewrite app_nil_r.
      * intros [t' r0] Hm' Hne.
        destruct (Hin _ _ Hm' Hne) as (r' & -> & Es' & _). congruence.
    + rewrite flat_map_nil; [done|]. intros [t' r0] Hm'.
      destruct (g (t', r0)) as [|y ys] eqn:Eg; [done|].
      destruct (Hin t' r0 Hm') as (r' & _ & Es' & Hf & _);
        [by rewrite Eg|].
      injection Es' as <- <-. rewrite Ef in Hf. by apply is_Some_None in Hf.
  - rewrite flat_map_nil; [done|]. intros [t' r0] Hm'.
    destruct (g (t', r0)) as [|y ys] eqn:Eg; [done|].
    destruct (Hin t' r0 Hm') as (r' & _ & Es' & _); [by rewrite Eg|done].
Qed.

(** The last field: its first match, which must leave nothing. *)
Lemma match_last_field (d : directive) (s : string) (f : found) :
  head (match_items [Group d] s f)
  = (λ m : string * string, (set_group d m.1 f, m.2))
      <$> head (rx (directive_regex d) s).
Proof.
  cbn [match_items]. by destruct (rx (directive_regex d) s).
Qed.

Lemma last_field_whole (d : directive) (s t r : string) :
  field d s = None → head (rx (directive_regex d) s) = Some (t, r) → r ≠ "".
Proof.
  intros Hf Hh ->.
  assert (In (t, "") (rx (directive_regex d) s)) as Hm.
  { destruct (rx (directive_regex d) s); [done|].
    injection Hh as ->. by left. }
  apply field_matches in Hm as [-> Hs]. rewrite append_empty_r in Hf.
  rewrite Hf in Hs. by apply is_Some_None in Hs.
Qed.

(** [parse] on three fields with a separator between them. *)
Lemma parse_three_fields (d1 d2 d3 : directive) (c : ascii) (s : string) :
  c = "-"%char ∨ c = "/"%char →
  parse [Group d1; Literal c; Group d2; Literal c; Group d3] s
  = match split_at c s with
    | Some (t1, r) =>
        match split_at c r with
        | Some (t2, t3) =>
            match field d1 t1, field d2 t2, field d3 t3 with
            | Some _, Some _, Some _ =>
                let f := set_group d3 t3 (set_group d2 t2
                           (set_group d1 t1 no_groups)) in
                pair f <$> datetime_date (group_int 1900 (found_Y f))
                                         (group_int 1 (found_m f))
                                         (group_int 1 (found_d f))
            | _, _, _ => None
            end
        | None => None
        end
    | None => None
    end.
Proof.
  intros Hc. unfold parse, re_match.
  rewrite match_field_then_separator by done.
  destruct (split_at c s) as [[t1 r]|]; [|done].
  destruct (field d1 t1) as [v1|].
  2:{ destruct (split_at c r) as [[t2 t3]|]; done. }
  rewrite match_field_then_separator by done.
  destruct (split_at c r) as [[t2 t3]|]; [|done].
  destruct (field d2 t2) as [v2|]; [|done].
  rewrite match_last_field.
  destruct (field d3 t3) as [v3|] eqn:E3.
  - rewrite field_first by (rewrite E3; by eexists). reflexivity.
  - destruct (head (rx (directive_regex d3) t3)) as [[t r']|] eqn:Eh; [|done].
    simpl. pose proof (last_field_whole _ _ _ _ E3 Eh). by destruct r'.
Qed.

(** What [parse] makes of a text with a compiled format is the date
    written in the text, read in the arrangement of the format. *)
Lemma parse_written (f : Compiled.format) (s : string) :
  snd <$> parse (Compiled.layout f) s
  = Written.read_as (arrangement f).1 (arrangement f).2 s.
Proof.
  unfold Written.read_as.
  destruct f; unfold Compiled.layout, arrangement; cbn [fst snd];
    rewrite parse_three_fields by auto;
    (destruct (split_at _ s) as [[t1 r]|]; [|done]);
    (destruct (split_at _ r) as [[t2 t3]|]; [|done]);
    cbn [field].
  - destruct (Written.year t1) as [y|] eqn:Ey; [|done].
    destruct (Written.month t2) as [m|] eqn:Em; [|done].
    destruct (Written.day t3) as [d|] eqn:Ed; [|done].
    cbn [set_group found_Y found_m found_d no_groups group_int mbind
         option_bind].
    rewrite (field_int dY _ _ Ey), (field_int dm _ _ Em), (field_int dd _ _ Ed).
    rewrite date_datetime_date
      by eauto using year_range, number_range, day_range with lia.
    by destruct (Written.date y m d).
  - destruct (Written.month t1) as [m|] eqn:Em; [|done].
    destruct (Written.day t2) as [d|] eqn:Ed; [|done].
    destruct (Written.year t3) as [y|] eqn:Ey; [|done].
    cbn [set_group found_Y found_m found_d no_groups group_int mbind
         option_bind].
    rewrite (field_int dY _ _ Ey), (field_int dm _ _ Em), (field_int dd _ _ Ed).
    rewrite date_datetime_date
      by eauto using year_range, number_range, day_range with lia.
    by destruct (Written.date y m d).
  - destruct (Written.month t1) as [m|] eqn:Em; [|done].
    destruct (Written.day t2) as [d|] eqn:Ed; [|done].
    destruct (Written.year t3) as [y|] eqn:Ey; [|done].
    cbn [set_group found_Y found_m found_d no_groups group_int mbind
         option_bind].
    rewrite (field_int dY _ _ Ey), (field_int dm _ _ Em), (field_int dd _ _ Ed).
    rewrite date_datetime_date
      by eauto using year_range, number_range, day_range with lia.
    by destruct (Written.date y m d).
Qed.

(** [validate_date] on a text that is not blank. *)
Lemma validate_date_read (s : string) :
  PyStr.strip s ≠ "" →
  validate_date s
  = match Written.read (PyStr.strip s) with
    | Some d => (true, Some d)
    | None => (false, None)
    end.
Proof.
  intros Hs. unfold validate_date. rewrite empty_guard.
  destruct (String.eqb_spec (PyStr.strip s) "") as [E|_]; [done|].
  rewrite try_formats_layouts, !parse_written. unfold Written.read.
  cbn [arrangement fst snd].
  destruct (Written.read_as YMD "-" (PyStr.strip s)); [done|].
  destruct (Written.read_as MDY "/" (PyStr.strip s)); [done|].
  by destruct (Written.read_as MDY "-" (PyStr.strip s)).
Qed.


(** *** The written dates and the four formats of the list *)

Lemma year_worded (t : string) (y : Z) :
  Written.year t = Some y → Worded.year_text t = true.
Proof.
  destruct t as [|a [|b [|e [|g [|h t]]]]]; try done.
  unfold Written.year, Worded.year_text, Worded.digits, Worded.digit,
    Written.digit.
  destruct (_ && _) eqn:E; [|done]. intros _. cbn [String.length Nat.eqb]. lia.
Qed.

Lemma number_worded (hi : Z) (t : string) (v : Z) :
  Written.number hi t = Some v → Worded.short_text t = true.
Proof.
  destruct t as [|a [|b [|e t]]]; try done;
    unfold Written.number, Worded.short_text, Worded.digits, Worded.digit,
      Written.digit;
    cbv zeta; (destruct (_ && _) eqn:E; [|done]); intros _;
    cbn [String.length Nat.leb]; lia.
Qed.

Lemma day_worded (t : string) (v : Z) :
  Written.day t = Some v → Worded.short_text t = true ∨ no_blank t = false.
Proof.
  destruct t as [|a [|b [|e t]]]; try done; unfold Written.day.
  - intros H. left. by eapply number_worded.
  - destruct (Ascii.eqb_spec a " ") as [->|_].
    + intros _. by right.
    + intros H. left. by eapply number_worded.
Qed.

Lemma no_blank_append (a b : string) :
  no_blank (a +:+ b) = no_blank a && no_blank b.
Proof. apply string_forall_append. Qed.

Lemma no_blank_cons (c : ascii) (a : string) :
  no_blank (String c a) = negb (Ascii.eqb c " ") && no_blank a.
Proof. reflexivity. Qed.

(** A written date has the shape of its arrangement, unless its day is
    written with a blank. *)
Lemma read_as_worded (o : field_order) (c : ascii) (t : string) (d : datetime) :
  Written.read_as o c t = Some d →
  Worded.shape o c t = true ∨ no_blank t = false.
Proof.
  unfold Written.read_as, Worded.shape.
  destruct (split_at c t) as [[t1 r]|] eqn:E1; [|done].
  destruct (split_at c r) as [[t2 t3]|] eqn:E2; [|done].
  apply split_at_sound in E1 as ->. apply split_at_sound in E2 as ->.
  destruct o.
  - destruct (Written.year t1) as [y|] eqn:Ey; [|done].
    destruct (Written.month t2) as [m|] eqn:Em; [|done].
    destruct (Written.day t3) as [dd'|] eqn:Ed; [|done]. intros _.
    rewrite (year_worded _ _ Ey), (number_worded _ _ _ Em).
    destruct (day_worded _ _ Ed) as [->|Hb]; [by left|right].
    repeat (rewrite no_blank_append || rewrite no_blank_cons).
    rewrite Hb. repeat (simpl; rewrite ?andb_false_r). reflexivity.
  - destruct (Written.month t1) as [m|] eqn:Em; [|done].
    destruct (Written.day t2) as [dd'|] eqn:Ed; [|done].
    destruct (Written.year t3) as [y|] eqn:Ey; [|done]. intros _.
    rewrite (year_worded _ _ Ey), (number_worded _ _ _ Em).
    destruct (day_worded _ _ Ed) as [->|Hb]; [by left|right].
    repeat (rewrite no_blank_append || rewrite no_blank_cons).
    rewrite Hb. repeat (simpl; rewrite ?andb_false_r). reflexivity.
Qed.

Lemma read_worded (t : string) (d : datetime) :
  Written.read t = Some d → Worded.matches t = true ∨ no_blank t = false.
Proof.
  unfold Written.read, Worded.matches.
  destruct (Written.read_as YMD "-" t) as [d1|] eqn:E1.
  { intros _. destruct (read_as_worded _ _ _ _ E1) as [->|?]; auto. }
  destruct (Written.read_as MDY "/" t) as [d2|] eqn:E2.
  { intros _. destruct (read_as_worded _ _ _ _ E2) as [->|?]; auto.
    left. by rewrite orb_true_r. }
  intros E3. destruct (read_as_worded _ _ _ _ E3) as [->|?]; auto.
  left. by rewrite !orb_true_r.
Qed.

End Grammar.

(** C1, as worded, fails: [06/ 1/2025], with a blank for the tens of
    the day, is accepted as the first of June 2025, and has none of the
    four formats, however the widths of month and day are read. *)
Lemma C1_blank_day_counterexample : ¬ only_listed_formats.
Proof.
  intros H.
  assert (validate_date "06/ 1/2025" = (false, None)) as E.
  { apply H; [vm_compute; discriminate|vm_compute; reflexivity]. }
  vm_compute in E. discriminate E.
Qed.

(** C1, amended. For a text that is not blank, [validate_date] accepts
    the stripped text exactly when it is a written date: a year of four
    digits, a month from 1 to 12 and a day from 1 to 31, as
    year-month-day with hyphens, month/day/year with slashes or
    month-day-year with hyphens; month and day with one digit or with
    two, the day also as a blank and one digit from 1 to 9; the three a
    date of the calendar in a year from 1 on.  It then returns that
    date, and in every other case [(false, None)].  So a text without
    a blank that has none of the four formats of the list is rejected;
    [2025-13-40] and [not a date] are rejected. *)
Theorem C1_accepted_texts (s : string) :
  PyStr.strip s ≠ "" →
  validate_date s
  = match Written.read (PyStr.strip s) with
    | Some d => (true, Some d)
    | None => (false, None)
    end
  ∧ (Worded.matches (PyStr.strip s) = false →
     no_blank (PyStr.strip s) = true →
     validate_date s = (false, None))
  ∧ validate_date "2025-13-40" = (false, None)
  ∧ validate_date "not a date" = (false, None).
Proof.
  intros Hs. pose proof (validate_date_read s Hs) as Hv.
  split; [exact Hv|]. split; [|by split].
  intros Hw Hb. rewrite Hv.
  destruct (Written.read (PyStr.strip s)) as [d|] eqn:E; [|done].
  destruct (read_worded _ _ E) as [H|H]; congruence.
Qed.

Lemma C1_rejected_examples :
  validate_date " 2025-13-40 " = (false, None)
  ∧ validate_date "2025-06-01x" = (false, None)
  ∧ validate_date "06/ 1/2025" = (true, Some (mkdatetime 2025 6 1)).
Proof.
  split; [|split].
  - refine (proj1 (C1_accepted_texts " 2025-13-40 " _)).
    vm_compute. discriminate.
  - refine (proj1 (C1_accepted_texts "2025-06-01x" _)).
    vm_compute. discriminate.
  - refine (proj1 (C1_accepted_texts "06/ 1/2025" _)).
    vm_compute. discriminate.
Defined.

Section Stripping.

Lemma rstrip_all_space (ws : string) :
  string_forall PyStr.isspace ws = true → PyStr.rstrip ws = "".
Proof.
  induction ws as [|c ws IH]; simpl; [done|].
  intros H. apply andb_true_iff in H as [Hc Hws]. by rewrite IH, Hc.
Qed.

Lemma lstrip_pad (ws t : string) :
  string_forall PyStr.isspace ws = true →
  PyStr.lstrip (ws +:+ t) = PyStr.lstrip t.
Proof.
  induction ws as [|c ws IH]; [done|]. rewrite append_cons. simpl.
  intros H. apply andb_true_iff in H as [-> Hws]. by apply IH.
Qed.

Lemma rstrip_pad (t ws : string) :
  string_forall PyStr.isspace ws = true →
  PyStr.rstrip (t +:+ ws) = PyStr.rstrip t.
Proof.
  intros Hws. induction t as [|c t IH]; [by apply rstrip_all_space|].
  rewrite append_cons. simpl. by rewrite IH.
Qed.

Lemma strip_pad_r (s ws : string) :
  string_forall PyStr.isspace ws = true →
  PyStr.strip (s +:+ ws) = PyStr.strip s.
Proof.
  intros Hws. unfold PyStr.strip. induction s as [|c s IH].
  - change ("" +:+ ws) with ws.
    rewrite <- (append_empty_r ws), lstrip_pad by done. done.
  - rewrite append_cons. simpl. destruct (PyStr.isspace c); [exact IH|].
    rewrite <- append_cons. by apply rstrip_pad.
Qed.

(** White space around a text does not reach [strip]. *)
Lemma strip_pad (ws1 s ws2 : string) :
  string_forall PyStr.isspace ws1 = true →
  string_forall PyStr.isspace ws2 = true →
  PyStr.strip (ws1 +:+ s +:+ ws2) = PyStr.strip s.
Proof.
  intros H1 H2. unfold PyStr.strip at 1. rewrite lstrip_pad by done.
  by apply strip_pad_r.
Qed.

End Stripping.

(** X1. White space before and after a text changes nothing: the
    recogniser gives the same verdict and the same date. *)
Theorem X1_padding_ignored (ws1 s ws2 : string) :
  string_forall PyStr.isspace ws1 = true →
  string_forall PyStr.isspace ws2 = true →
  validate_date (ws1 +:+ s +:+ ws2) = validate_date s.
Proof.
  intros H1 H2. unfold validate_date. rewrite !empty_guard.
  rewrite strip_pad by done.
  destruct (String.eqb (PyStr.strip s) ""); [done|].
  assert (∀ fmts, try_formats fmts (ws1 +:+ s +:+ ws2) = try_formats fmts s) as H.
  { induction fmts as [|fmt fmts IH]; simpl; [done|].
    rewrite strip_pad by done. by rewrite IH. }
  apply H.
Qed.

Lemma X1_padded_date :
  validate_date ("  " +:+ "6/1/2025" +:+ " ") = validate_date "6/1/2025".
Proof.
  apply (X1_padding_ignored "  " "6/1/2025" " "); reflexivity.
Defined.

(** X2. A date that the recogniser returns exists in the calendar: year
    1 to 9999, month 1 to 12, and a day of that month, February having
    29 days in leap years only. *)
Theorem X2_parsed_date_exists (s : string) (d : datetime) :
  validate_date s = (true, Some d) →
  1 ≤ dt_year d ≤ 9999
  ∧ 1 ≤ dt_month d ≤ 12
  ∧ 1 ≤ dt_day d ≤ Strptime.days_in_month (dt_year d) (dt_month d).
Proof.
  intros H. apply validate_date_accepts in H as (f & g & Hp).
  apply (parse_sound date_char) in Hp as (_ & _ & Hd).
  by apply datetime_date_bounds in Hd.
Qed.

Lemma X2_leap_day :
  1 ≤ 2024 ≤ 9999 ∧ 1 ≤ 2 ≤ 12 ∧ 1 ≤ 29 ≤ Strptime.days_in_month 2024 2.
Proof.
  apply (X2_parsed_date_exists "2/29/2024" (mkdatetime 2024 2 29)).
  vm_compute. reflexivity.
Defined.

(** X3. The recogniser has three kinds of result: valid without a date,
    which it gives exactly for the texts that are blank; valid with a
    date; and invalid, always without a date. *)
Theorem X3_result_kinds (s : string) :
  (validate_date s = (true, None) ↔ PyStr.strip s = "")
  ∧ (validate_date s = (true, None)
     ∨ (∃ d, validate_date s = (true, Some d))
     ∨ validate_date s = (false, None)).
Proof.
  unfold validate_date. rewrite empty_guard, eqb_empty.
  destruct (PyStr.strip s) as [|c t] eqn:E; cbn [PyStr.truthy negb].
  - split; [done|]. by left.
  - rewrite try_formats_layouts.
    repeat (destruct (snd <$> Strptime.parse _ _) as [?|]; cbv beta iota;
            [split; [split; discriminate|]; right; left; by eexists|]).
    split; [split; discriminate|]. right. by right.
Qed.

(** X4. A text accepted with a date is, once stripped, 8 to 10
    characters long and made only of characters of the class [\d]
    (decimal digits; among the code points below 256, to which the
    strings here are limited, these are [0] to [9]), [-], [/] and
    blanks: no time of day, time zone or other trailing text passes. *)
Theorem X4_accepted_text_shape (s : string) (d : datetime) :
  validate_date s = (true, Some d) →
  (8 ≤ String.length (PyStr.strip s) ≤ 10)%nat
  ∧ string_forall date_char (PyStr.strip s) = true.
Proof.
  intros H. apply validate_date_accepts in H as (f & g & Hp).
  apply (parse_sound date_char) in Hp as (Hl & Hc & _).
  destruct (layout_lengths f) as [Hmin Hmax]. rewrite Hmin, Hmax in Hl.
  split; [exact Hl|]. apply Hc, layout_chars.
Qed.

Lemma X4_iso_text :
  (8 ≤ String.length (PyStr.strip " 2025-06-01 ") ≤ 10)%nat
  ∧ string_forall date_char (PyStr.strip " 2025-06-01 ") = true.
Proof.
  apply (X4_accepted_text_shape " 2025-06-01 " (mkdatetime 2025 6 1)).
  vm_compute. reflexivity.
Defined.

(** * Further properties of the File Validator *)

Section Emission.

Implicit Types (headers fields : list string) (row : row_dict)
  (st : state) (reader pre post : list step) (idx : Z).

Lemma emits_mret {A} P (a : A) : emits 0 P (mret a : M A).
Proof.
  intros st r st' [= <- <-]. split; [done|]. exists []. by rewrite app_nil_r.
Qed.

Lemma emits_raise {A} P e : emits 0 P (raise e : M A).
Proof.
  intros st r st' [= <- <-]. split; [done|]. exists []. by rewrite app_nil_r.
Qed.

Lemma emits_append_error (P : string → Prop) msg :
  P msg → emits 1 P (append_error msg).
Proof.
  intros HP st r st' [= <- <-]. simpl. split; [done|]. exists [msg].
  split; [done|]. split; [simpl; lia|]. by constructor.
Qed.

Lemma emits_weaken {A} (k k' : nat) P (m : M A) :
  (k ≤ k')%nat → emits k P m → emits k' P m.
Proof.
  intros Hk Hm st r st' E. destruct (Hm _ _ _ E) as (Hc & l & Hl & Hn & HP).
  split; [done|]. exists l. split; [done|]. split; [lia|done].
Qed.

Lemma emits_bind {A B} (k1 k2 : nat) P (m : M A) (f : A → M B) :
  emits k1 P m → (∀ a, emits k2 P (f a)) → emits (k1 + k2) P (m ≫= f).
Proof.
  intros Hm Hf st r st'. unfold mbind, M_bind.
  destruct (m st) as [[a|e] st1] eqn:E;
    destruct (Hm _ _ _ E) as (Hc & l & Hl & Hn & HP).
  - intros E2. destruct (Hf a _ _ _ E2) as (Hc2 & l2 & Hl2 & Hn2 & HP2).
    split; [congruence|]. exists (l ++ l2)%list.
    split; [by rewrite Hl2, Hl, app_assoc|].
    split; [rewrite length_app; lia|]. by apply Forall_app.
  - intros [= <- <-]. split; [done|]. exists l. split; [done|]. split; [lia|done].
Qed.

Lemma emits_str_receiver P v : emits 0 P (str_receiver v).
Proof. destruct v; [apply emits_raise|apply emits_mret|apply emits_raise]. Qed.

Lemma emits_check_type idx row : emits 1 (row_message idx) (check_type idx row).
Proof.
  unfold check_type. destruct (_ || _);
    [|eapply emits_weaken; [|apply emits_mret]; lia].
  apply (emits_bind 0 1); [apply emits_str_receiver|]. intros s.
  destruct (_ && _); [|eapply emits_weaken; [|apply emits_mret]; lia].
  apply emits_append_error. left. by eexists.
Qed.

Lemma emits_check_date_value idx k v :
  In k (concat date_fields) →
  emits 1 (row_message idx) (check_date_value idx k v).
Proof.
  intros Hk. unfold check_date_value.
  destruct (py_truthy v); [|eapply emits_weaken; [|apply emits_mret]; lia].
  apply (emits_bind 0 1); [apply emits_str_receiver|]. intros s.
  destruct (PyStr.truthy _); [|eapply emits_weaken; [|apply emits_mret]; lia].
  destruct (validate_date s) as [[] ?]; simpl;
    [eapply emits_weaken; [|apply emits_mret]; lia|].
  apply emits_append_error. right. by eexists _, _.
Qed.

Lemma emits_check_date_options idx row (options : list string) :
  (∀ k, In k options → In k (concat date_fields)) →
  emits 1 (row_message idx) (check_date_options idx row options).
Proof.
  induction options as [|k options IH]; intros Hsub; simpl.
  - eapply emits_weaken; [|apply emits_mret]; lia.
  - destruct (row !! Some k).
    + apply emits_check_date_value. apply Hsub. by left.
    + apply IH. intros k' Hk'. apply Hsub. by right.
Qed.

Lemma emits_check_date_fields idx row (groups : list (list string)) :
  (∀ g k, In g groups → In k g → In k (concat date_fields)) →
  emits (length groups) (row_message idx) (check_date_fields idx row groups).
Proof.
  induction groups as [|g groups IH]; intros Hsub; simpl.
  - apply emits_mret.
  - apply (emits_bind 1 (length groups)).
    + apply emits_check_date_options. intros k Hk. apply (Hsub g); [by left|done].
    + intros _. apply IH. intros g' k Hg' Hk. apply (Hsub g'); [by right|done].
Qed.

(** A row appends at most four errors, all of them its own. *)
Lemma emits_check_row idx row : emits 4 (row_message idx) (check_row idx row).
Proof.
  unfold check_row. apply (emits_bind 1 3); [apply emits_check_type|].
  intros _. apply (emits_check_date_fields idx row date_fields).
  intros g k Hg Hk. apply in_concat. eauto.
Qed.

(** The scan appends row messages numbered from its start index, at
    most four for each row it counts. *)
Lemma rows_loop_emits headers reader idx st r st' :
  rows_loop headers reader idx st = (r, st') →
  let n := row_count st' - row_count st in
  0 ≤ n
  ∧ ∃ l, errors st' = (errors st ++ l)%list
       ∧ Z.of_nat (length l) ≤ 4 * n
       ∧ Forall (row_message_in idx (idx + n)) l.
Proof.
  revert idx st. induction reader as [|s reader IH]; intros idx st; simpl.
  - intros [= <- <-]. split; [lia|]. exists []. rewrite app_nil_r.
    split; [done|]. split; [simpl; lia|done].
  - destruct s as [[|f fs]|e]; simpl.
    + apply IH.
    + unfold mbind, M_bind. simpl.
      destruct (check_row idx _ _) as [[[]|e] st1] eqn:E;
        destruct (emits_check_row _ _ _ _ _ E) as (Hc & l & Hl & Hn & HP);
        simpl in Hc, Hl.
      * intros E2. destruct (IH _ _ E2) as (Hn2 & l2 & Hl2 & Hlen2 & HP2).
        split; [lia|]. exists (l ++ l2)%list.
        split; [by rewrite Hl2, Hl, app_assoc|].
        split; [rewrite length_app; lia|].
        apply Forall_app. split.
        -- eapply Forall_impl; [exact HP|]. intros m Hm. exists idx.
           split; [lia|done].
        -- eapply Forall_impl; [exact HP2|]. intros m (i & Hi & Hm).
           exists i. split; [lia|done].
      * intros [= <- <-]. split; [lia|]. exists l. split; [done|].
        split; [lia|]. eapply Forall_impl; [exact HP|]. intros m Hm.
        exists idx. split; [lia|done].
    + intros [= <- <-]. split; [lia|]. exists []. rewrite app_nil_r.
      split; [done|]. split; [simpl; lia|done].
Qed.

End Emission.

Section Results.

Implicit Types (headers fields : list string) (reader pre post : list step).

(** Every result is a list of row messages followed by at most one
    message about the file. *)
Lemma validate_shape (f : file) :
  ∃ body tail n,
    validate_csv_file f = ((body ++ tail)%list, [], n)
    ∧ 0 ≤ n
    ∧ len body ≤ 4 * n
    ∧ Forall (row_message_in 2 (n + 2)) body
    ∧ (tail = [] ∨ ∃ m, tail = [m] ∧ file_message m).
Proof.
  assert (∀ e, file_message (file_level_msg e)) as Hfile
    by (intros e; right; by exists e).
  assert (∀ m, file_message m →
            ∃ body tail n, ([m], @nil string, 0) = ((body ++ tail)%list, [], n)
              ∧ 0 ≤ n ∧ len body ≤ 4 * n
              ∧ Forall (row_message_in 2 (n + 2)) body
              ∧ (tail = [] ∨ ∃ m, tail = [m] ∧ file_message m)) as Hone.
  { intros m Hm. exists [], [m], 0. repeat split; try done. right. eauto. }
  destruct f as [e|[|[[|h hs]|e] reader]].
  - replace (validate_csv_file (open_raises e))
      with ([file_level_msg e], @nil string, 0) by (by destruct e).
    apply Hone, Hfile.
  - apply Hone. by left.
  - apply Hone. by left.
  - rewrite validate_with_header by done.
    destruct (rows_loop (h :: hs) reader 2 st0) as [[[]|e] st] eqn:E;
      destruct (rows_loop_emits _ _ _ _ _ _ E) as (Hn & l & Hl & Hlen & HP);
      simpl in Hn, Hl, Hlen, HP; rewrite Z.sub_0_r in *; rewrite Hl.
    + exists l, [], (row_count st). rewrite app_nil_r.
      split; [done|]. split; [done|]. split; [done|].
      split; [|by left]. by rewrite Z.add_comm.
    + exists l, [file_level_msg e], (row_count st).
      split; [done|]. split; [done|]. split; [done|].
      split; [by rewrite Z.add_comm|]. right. eauto.
  - replace (validate_csv_file (open_ok (Raise e :: reader)))
      with ([file_level_msg e], @nil string, 0) by (by destruct e).
    apply Hone, Hfile.
Qed.

End Results.

(** X5. A result never holds more than four errors for each row
    counted, plus one for the file. *)
Theorem X5_error_count_bound (f : file) :
  len (validate_csv_file f).1.1 ≤ 4 * (validate_csv_file f).2 + 1.
Proof.
  destruct (validate_shape f) as (body & tail & n & -> & Hn & Hlen & _ & Ht).
  simpl. unfold len in *. rewrite length_app.
  destruct Ht as [->|(m & -> & _)]; simpl; lia.
Qed.

(** X6. The errors of a result are messages of rows, each a type
    message or a date message naming a column of [date_fields] and
    numbered from 2 to the row count plus 1, followed by at most one
    message about the file ([No headers found], a CSV parsing error or
    an unexpected error), which comes last. *)
Theorem X6_result_layout (f : file) :
  ∃ body tail,
    (validate_csv_file f).1.1 = (body ++ tail)%list
    ∧ Forall (row_message_in 2 ((validate_csv_file f).2 + 2)) body
    ∧ (tail = [] ∨ ∃ m, tail = [m] ∧ file_message m).
Proof.
  destruct (validate_shape f) as (body & tail & n & -> & _ & _ & HP & Ht).
  by exists body, tail.
Qed.

Section Scans.

Import DictReader.

Implicit Types (headers fields : list string) (row : row_dict)
  (st : state) (reader pre post : list step) (idx : Z).

(** *** Rows with a field for every header *)

Lemma make_row_full headers fields k v :
  (length headers ≤ length fields)%nat →
  make_row headers fields !! Some k = Some v → ∃ s, v = PyStr s.
Proof.
  intros Hlen. unfold make_row, dict_zip.
  replace (length fields <? length headers)%nat with false
    by (symmetry; apply Nat.ltb_ge; lia).
  destruct (length headers <? length fields)%nat.
  - rewrite lookup_insert_ne by discriminate. intros H.
    apply foldl_put_field_values in H as [H|H]; [|done].
    by rewrite lookup_empty in H.
  - intros H. apply foldl_put_field_values in H as [H|H]; [|done].
    by rewrite lookup_empty in H.
Qed.

Lemma consulted_type_full headers fields :
  (length headers ≤ length fields)%nat →
  ∃ v, consulted_type (make_row headers fields) = PyStr v.
Proof.
  intros Hlen. unfold consulted_type, dict_get.
  destruct (make_row headers fields !! Some "type") as [v|] eqn:E1.
  { by apply make_row_full in E1. }
  destruct (make_row headers fields !! Some "Type") as [v|] eqn:E2.
  { by apply make_row_full in E2. }
  by eexists.
Qed.

(** A row whose type check ends normally ends normally. *)
Lemma check_row_completes idx headers fields st st1 :
  check_type idx (make_row headers fields) st = (inl tt, st1) →
  ∃ st2, check_row idx (make_row headers fields) st = (inl tt, st2).
Proof.
  intros Ht. unfold check_row. erewrite bind_inl by exact Ht.
  rewrite check_date_fields_errors. by eexists.
Qed.

Lemma check_row_full idx headers fields st :
  (length headers ≤ length fields)%nat →
  ∃ st2, check_row idx (make_row headers fields) st = (inl tt, st2).
Proof.
  intros Hlen.
  destruct (dict_in "type" (make_row headers fields)
            || dict_in "Type" (make_row headers fields)) eqn:E.
  - destruct (consulted_type_full headers fields Hlen) as [v Hv].
    eapply check_row_completes. by apply check_type_text.
  - eapply check_row_completes. by apply check_type_absent.
Qed.

Lemma check_row_untyped idx headers fields st :
  ("type" ∉ headers) → ("Type" ∉ headers) →
  ∃ st2, check_row idx (make_row headers fields) st = (inl tt, st2).
Proof.
  intros H1 H2. eapply check_row_completes. apply check_type_absent.
  rewrite !dict_in_make_row. by rewrite !bool_decide_eq_false_2.
Qed.

Lemma rows_loop_completes headers reader idx st :
  forallb is_yield reader = true →
  ((("type" ∉ headers) ∧ ("Type" ∉ headers))
   ∨ forallb (full_record headers) reader = true) →
  ∃ st', rows_loop headers reader idx st = (inl tt, st').
Proof.
  revert idx st. induction reader as [|s reader IH]; intros idx st Hy Hok.
  - by eexists.
  - simpl in Hy. apply andb_true_iff in Hy as [Hs Hy].
    destruct s as [fields|e]; [|done].
    assert ((("type" ∉ headers) ∧ ("Type" ∉ headers))
            ∨ forallb (full_record headers) reader = true) as Hok'.
    { destruct Hok as [Hok|Hok]; [by left|]. right. simpl in Hok.
      by apply andb_true_iff in Hok as [_ ?]. }
    destruct fields as [|f fs]; [by apply IH|].
    rewrite rows_loop_row by done.
    assert (∃ st2, check_row idx (make_row headers (f :: fs)) (bump st)
                   = (inl tt, st2)) as [st2 ->].
    { destruct Hok as [[H1 H2]|Hok]; [by apply check_row_untyped|].
      apply check_row_full. simpl in Hok.
      apply andb_true_iff in Hok as [Hf _]. by apply Nat.leb_le in Hf. }
    by apply IH.
Qed.

(** *** Rows that differ outside the header names *)

Lemma check_date_options_ext idx row1 row2 (options : list string) :
  (∀ k, row1 !! Some k = row2 !! Some k) →
  check_date_options idx row1 options = check_date_options idx row2 options.
Proof.
  intros H. induction options as [|k options IH]; simpl; [done|].
  by rewrite H, IH.
Qed.

Lemma check_row_ext idx row1 row2 :
  (∀ k, row1 !! Some k = row2 !! Some k) →
  check_row idx row1 = check_row idx row2.
Proof.
  intros H. unfold check_row, check_type, dict_in, dict_get. rewrite !H.
  f_equal. induction date_fields as [|g groups IH]; simpl; [done|].
  by rewrite (check_date_options_ext idx row1 row2), IH.
Qed.

Lemma make_row_cut headers fields k :
  make_row headers (take (length headers) fields) !! Some k
  = make_row headers fields !! Some k.
Proof.
  destruct (decide (length headers < length fields)%nat) as [Hlt|Hge].
  - unfold make_row, dict_zip. rewrite length_take_le by lia.
    rewrite Nat.ltb_irrefl.
    replace (length headers <? length fields)%nat with true
      by (symmetry; apply Nat.ltb_lt; lia).
    rewrite lookup_insert_ne by discriminate.
    by rewrite zip_with_take_r.
  - by rewrite take_ge by lia.
Qed.

Lemma rows_loop_cut headers reader idx :
  headers ≠ [] →
  rows_loop headers (map (cut_record headers) reader) idx
  = rows_loop headers reader idx.
Proof.
  intros Hne. revert idx. induction reader as [|s reader IH]; intros idx;
    [done|].
  destruct s as [[|f fs]|e]; simpl.
  - destruct headers; simpl; apply IH.
  - destruct headers as [|h hs]; [done|]. simpl.
    rewrite IH.
    rewrite (check_row_ext idx (make_row (h :: hs) (f :: take (length hs) fs))
                               (make_row (h :: hs) (f :: fs))); [done|].
    intros k. exact (make_row_cut (h :: hs) (f :: fs) k).
  - done.
Qed.

(** *** Blank records *)

Lemma rows_loop_blanks headers reader idx :
  rows_loop headers (filter (λ s, is_blank s = false) reader) idx
  = rows_loop headers reader idx.
Proof.
  revert idx. induction reader as [|s reader IH]; intros idx; [done|].
  rewrite filter_cons. destruct s as [[|f fs]|e]; simpl; by rewrite ?IH.
Qed.

(** *** Files without a recognised column *)

Lemma rows_loop_silent headers reader idx st :
  forallb is_yield reader = true →
  (∀ k, In k ("type" :: "Type" :: concat date_fields) → k ∉ headers) →
  rows_loop headers reader idx st
  = (inl tt, mkstate (errors st) (row_count st + count_data reader)).
Proof.
  intros Hy Hno. revert idx st Hy.
  induction reader as [|s reader IH]; intros idx st Hy; simpl.
  - destruct st. simpl. by rewrite Z.add_0_r.
  - simpl in Hy. apply andb_true_iff in Hy as [Hs Hy].
    destruct s as [[|f fs]|e]; [| |done].
    + simpl. by rewrite IH.
    + assert (check_row idx (make_row headers (f :: fs)) (bump st)
              = (inl tt, bump st)) as Hrow.
      { unfold check_row. erewrite bind_inl; cycle 1.
        { apply check_type_absent. rewrite !dict_in_make_row.
          rewrite !bool_decide_eq_false_2; [done|..];
            apply Hno; simpl; tauto. }
        rewrite check_date_fields_errors.
        assert (∀ groups : list (list string),
                  (∀ g k, In g groups → In k g → k ∉ headers) →
                  flat_map (group_errors idx (make_row headers (f :: fs))) groups
                  = []) as Hnil.
        { induction groups as [|g groups IHg]; intros Hg; simpl; [done|].
          rewrite IHg by (intros g' k ??; apply (Hg g'); [by right|done]).
          rewrite app_nil_r.
          assert (∀ k, In k g → k ∉ headers) as Hk
            by (intros k ?; apply (Hg g); [by left|done]).
          clear -Hk. induction g as [|k g IHk]; simpl; [done|].
          rewrite make_row_absent by (apply Hk; by left).
          apply IHk. intros k' ?. apply Hk. by right. }
        rewrite Hnil; [by rewrite add_errors_nil|].
        intros g k Hg Hk. apply Hno. right. right. apply in_concat. eauto. }
      change (rows_loop headers (Yield (f :: fs) :: reader) idx st
              = (inl (), mkstate (errors st)
                           (row_count st + (1 + count_data reader)))).
      rewrite rows_loop_row, Hrow, IH by done. simpl.
      f_equal. f_equal. lia.
Qed.

End Scans.

(** X7. When the reader raises nothing and either the header has
    neither [type] nor [Type], or every record that is not blank has a
    field for every header, the scan runs to the end: the count is the
    number of records that are not blank and every error is the message
    of a row, none is about the file. *)
Theorem X7_full_rows_never_abort (headers : list string) (reader : list step) :
  headers ≠ [] →
  forallb is_yield reader = true →
  ((("type" ∉ headers) ∧ ("Type" ∉ headers))
   ∨ forallb (full_record headers) reader = true) →
  ∃ errs,
    validate_csv_file (open_ok (Yield headers :: reader))
    = (errs, [], count_data reader)
    ∧ Forall (row_message_in 2 (count_data reader + 2)) errs.
Proof.
  intros Hne Hy Hok.
  destruct (rows_loop_completes headers reader 2 st0 Hy Hok) as [st E].
  destruct (rows_loop_row_count _ _ _ _ _ E) as [Hc _]. simpl in Hc.
  destruct (rows_loop_emits _ _ _ _ _ _ E) as (_ & l & Hl & _ & HP).
  simpl in Hl, HP. rewrite Z.sub_0_r, Hc in HP.
  exists (errors st). rewrite validate_with_header, E by done.
  split; [by rewrite Hc|]. rewrite Hl. by rewrite Z.add_comm.
Qed.

Lemma X7_long_and_blank_records :
  ∃ errs,
    validate_csv_file
      (open_ok (Yield ["type"; "Date"]
                :: [Yield ["epic"; "soon"; "extra"]; Yield []; Yield ["task"; ""]]))
    = (errs, [], count_data [Yield ["epic"; "soon"; "extra"]; Yield [];
                             Yield ["task"; ""]])
    ∧ Forall (row_message_in 2
                (count_data [Yield ["epic"; "soon"; "extra"]; Yield [];
                             Yield ["task"; ""]] + 2)) errs.
Proof.
  apply (X7_full_rows_never_abort ["type"; "Date"]
           [Yield ["epic"; "soon"; "extra"]; Yield []; Yield ["task"; ""]]).
  - discriminate.
  - reflexivity.
  - right. reflexivity.
Defined.

(** X8. Fields beyond the last header never matter: cutting every
    record to the length of the header leaves the result unchanged. *)
Theorem X8_surplus_fields_ignored (headers : list string) (reader : list step) :
  validate_csv_file (open_ok (Yield headers :: map (cut_record headers) reader))
  = validate_csv_file (open_ok (Yield headers :: reader)).
Proof.
  destruct headers as [|h hs]; [reflexivity|].
  rewrite !validate_with_header by done. by rewrite rows_loop_cut.
Qed.

(** X9. Blank records after the header never matter: removing them
    leaves the result unchanged, row numbers included. *)
Theorem X9_blank_records_ignored (headers : list string) (reader : list step) :
  validate_csv_file
    (open_ok (Yield headers :: filter (λ s, is_blank s = false) reader))
  = validate_csv_file (open_ok (Yield headers :: reader)).
Proof.
  destruct headers as [|h hs]; [reflexivity|].
  rewrite !validate_with_header by done. by rewrite rows_loop_blanks.
Qed.

(** X10. Records added at the end of a file only add to its result:
    the errors of the shorter file are the first errors of the longer
    one, and its count is not larger. *)
Theorem X10_longer_file_extends (headers : list string) (pre post : list step) :
  (validate_csv_file (open_ok (Yield headers :: pre))).1.1
    `prefix_of` (validate_csv_file (open_ok (Yield headers :: pre ++ post))).1.1
  ∧ (validate_csv_file (open_ok (Yield headers :: pre))).2
    ≤ (validate_csv_file (open_ok (Yield headers :: pre ++ post))).2.
Proof.
  destruct headers as [|h hs]; [done|].
  rewrite !validate_with_header by done. rewrite rows_loop_app.
  destruct (rows_loop (h :: hs) pre 2 st0) as [[[]|e] st1] eqn:E1; [|done].
  destruct (rows_loop (h :: hs) post (2 + count_data pre) st1)
    as [[[]|e] st2] eqn:E2;
    destruct (rows_loop_monotone _ _ _ _ _ _ E2) as [Hc Hp]; simpl.
  - done.
  - split; [by apply prefix_app_r|done].
Qed.

(** X11. A file whose header has none of the recognised column names
    ([type], [Type] and the names of [date_fields]) and whose reader
    raises nothing has no error, whatever its records hold; the count
    is the number of records that are not blank. *)
Theorem X11_unrecognised_columns_pass (headers : list string) (reader : list step) :
  headers ≠ [] →
  forallb is_yield reader = true →
  (∀ k, In k ("type" :: "Type" :: concat date_fields) → k ∉ headers) →
  validate_csv_file (open_ok (Yield headers :: reader))
  = ([], [], count_data reader).
Proof.
  intros Hne Hy Hno. rewrite validate_with_header by done.
  by rewrite rows_loop_silent.
Qed.

Lemma X11_upper_case_headers :
  validate_csv_file
    (open_ok (Yield ["TYPE"; "START_DATE"] :: [Yield ["sprint"; "junk"]; Yield ["x"]]))
  = ([], [], count_data [Yield ["sprint"; "junk"]; Yield ["x"]]).
Proof.
  apply (X11_unrecognised_columns_pass ["TYPE"; "START_DATE"]
           [Yield ["sprint"; "junk"]; Yield ["x"]]).
  - discriminate.
  - reflexivity.
  - intros k Hk Hin. apply list_elem_of_In in Hin. simpl in Hin, Hk.
    destruct Hin as [<-|[<-|[]]];
      repeat (destruct Hk as [Hk|Hk]; [discriminate Hk|]); destruct Hk.
Defined.

(** * Properties of the driver *)

Section Driver.

Implicit Types (d : driver) (entry : string * file) (files : list (string * file)).

Lemma print_items_spec (items : list string) d :
  print_items items d
  = mkdriver (total_files d) (total_errors d) (total_warnings d) (total_rows d)
             (printed d ++ map (String.append "      - ") items)%list.
Proof.
  unfold print_items. revert d. induction items as [|x items IH]; intros d; simpl.
  - destruct d. simpl. by rewrite app_nil_r.
  - rewrite IH. simpl. by rewrite <- app_assoc.
Qed.

(** One file: the counters grow by its results, the warnings counter
    stays, and its lines are printed after what was printed. *)
Lemma report_spec d entry :
  report d entry
  = mkdriver (total_files d + 1)
             (total_errors d + len (file_errors entry))
             (total_warnings d)
             (total_rows d + file_rows entry)
             (printed d ++ report_lines entry)%list.
Proof.
  destruct entry as [rel_path f]. unfold report, report_lines, file_errors, file_rows.
  cbn [fst snd].
  destruct (validate_total f) as (errs & n & E & _). rewrite E. cbn [fst snd].
  destruct errs as [|e errs]; cbn [list_truthy orb].
  - unfold print, len. simpl. by rewrite Z.add_0_r.
  - rewrite print_items_spec. unfold print. cbn [total_files total_errors
      total_warnings total_rows printed]. f_equal.
    rewrite <- !app_assoc. done.
Qed.

Lemma len_cons {A} (x : A) (l : list A) : len (x :: l) = 1 + len l.
Proof. unfold len. simpl length. lia. Qed.

Lemma sum_Z_cons (x : Z) (l : list Z) : sum_Z (x :: l) = x + sum_Z l.
Proof. reflexivity. Qed.

Lemma foldl_report_spec files d :
  foldl report d files
  = mkdriver (total_files d + len files)
             (total_errors d + sum_Z (map (λ e, len (file_errors e)) files))
             (total_warnings d)
             (total_rows d + sum_Z (map file_rows files))
             (printed d ++ flat_map report_lines files)%list.
Proof.
  revert d. induction files as [|entry files IH]; intros d.
  - destruct d. unfold len. simpl. rewrite !Z.add_0_r, app_nil_r. done.
  - cbn [foldl]. rewrite IH, report_spec.
    rewrite !map_cons, !sum_Z_cons, len_cons. cbn [flat_map total_files
      total_errors total_warnings total_rows printed].
    f_equal; [lia|lia|lia|by rewrite app_assoc].
Qed.

Lemma sum_len_nonneg files :
  0 ≤ sum_Z (map (λ e, len (file_errors e)) files).
Proof.
  induction files as [|e files IH]; [done|].
  rewrite map_cons, sum_Z_cons. unfold len at 1. lia.
Qed.

Lemma sum_len_zero files :
  sum_Z (map (λ e, len (file_errors e)) files) = 0
  ↔ Forall (λ e, file_errors e = []) files.
Proof.
  induction files as [|e files IH].
  - split; [constructor|done].
  - rewrite map_cons, sum_Z_cons, Forall_cons, <- IH.
    pose proof (sum_len_nonneg files) as Hpos. unfold len at 1.
    destruct (file_errors e); simpl length; [split; [done|tauto]|].
    split; [lia|]. intros [? _]. done.
Qed.

Lemma main_exit files :
  (main files).2
  = if sum_Z (map (λ e, len (file_errors e)) files) =? 0 then 0 else 1.
Proof.
  unfold main. rewrite foldl_report_spec. simpl.
  rewrite Z.add_0_l. by destruct (_ =? 0).
Qed.

Lemma main_printed files :
  ∃ summary,
    printed (main files).1
    = (["🔍 Validating Sample Data Files" +:+ nl; str_mul "=" 70]
       ++ flat_map report_lines files ++ summary)%list
    ∧ length summary = 7%nat.
Proof.
  unfold main. rewrite foldl_report_spec. simpl.
  destruct (_ =? 0); simpl; eexists; rewrite <- !app_assoc;
    (split; [reflexivity|reflexivity]).
Qed.

End Driver.

(** X12. The exit status of [main] is 0 when no listed file has an
    error and 1 when some file has one; there is no other status. *)
Theorem X12_exit_status (files : list (string * file)) :
  ((main files).2 = 0 ∧ Forall (λ e, file_errors e = []) files)
  ∨ ((main files).2 = 1 ∧ Exists (λ e, file_errors e ≠ []) files).
Proof.
  rewrite main_exit.
  destruct (sum_Z (map (λ e, len (file_errors e)) files) =? 0) eqn:E.
  - left. split; [done|]. apply sum_len_zero. by apply Z.eqb_eq.
  - right. split; [done|]. apply Z.eqb_neq in E.
    apply not_Forall_Exists; [intros e; apply _|].
    intros H. by apply sum_len_zero in H.
Qed.

(** X13. The totals of the summary are the number of files, the sum of
    their row counts and the number of all their errors; the total of
    warnings is 0. *)
Theorem X13_summary_totals (files : list (string * file)) :
  total_files (main files).1 = len files
  ∧ total_rows (main files).1 = sum_Z (map file_rows files)
  ∧ total_errors (main files).1 = sum_Z (map (λ e, len (file_errors e)) files)
  ∧ total_warnings (main files).1 = 0.
Proof.
  unfold main. rewrite foldl_report_spec. simpl.
  destruct (_ =? 0); simpl; repeat split; lia.
Qed.

(** X14. The report names every problem: for a listed file with errors
    its path and each of its errors are printed; for a listed file
    without error its one line with path and row count is printed. *)
Theorem X14_every_error_printed (files : list (string * file))
    (entry : string * file) :
  In entry files →
  match file_errors entry with
  | [] =>
      In ("✅ " +:+ ljust 50 entry.1 +:+ " ("
          +:+ rjust 3 (pretty (file_rows entry)) +:+ " rows)")
         (printed (main files).1)
  | errs =>
      In (nl +:+ "📄 " +:+ entry.1) (printed (main files).1)
      ∧ ∀ msg, In msg errs → In ("      - " +:+ msg) (printed (main files).1)
  end.
Proof.
  intros Hin. destruct (main_printed files) as (summary & -> & _).
  assert (∀ line, In line (report_lines entry) →
            In line (["🔍 Validating Sample Data Files" +:+ nl; str_mul "=" 70]
                     ++ flat_map report_lines files ++ summary)%list) as Hline.
  { intros line Hl. apply in_app_iff. right. apply in_app_iff. left.
    apply in_flat_map. eauto. }
  unfold report_lines in Hline.
  destruct (file_errors entry) as [|e errs].
  - apply Hline. by left.
  - split; [apply Hline; by left|].
    intros msg Hmsg. apply Hline. right. right. right.
    apply in_map_iff. eauto.
Qed.

Lemma X14_two_files :
  In (nl +:+ "📄 " +:+ "b.csv")
     (printed (main [("a.csv", open_ok [Yield ["type"]; Yield ["task"]]);
                     ("b.csv", open_ok [Yield ["type"]; Yield ["epic"]])]).1)
  ∧ ∀ msg, In msg [invalid_type_msg 2 "epic"] →
      In ("      - " +:+ msg)
         (printed (main [("a.csv", open_ok [Yield ["type"]; Yield ["task"]]);
                         ("b.csv", open_ok [Yield ["type"]; Yield ["epic"]])]).1).
Proof.
  apply (X14_every_error_printed
           [("a.csv", open_ok [Yield ["type"]; Yield ["task"]]);
            ("b.csv", open_ok [Yield ["type"]; Yield ["epic"]])]
           ("b.csv", open_ok [Yield ["type"]; Yield ["epic"]])).
  right. left. reflexivity.
Defined.

(** * Which cell a check reads *)

Section Columns.

Import DictReader.

Implicit Types (headers fields : list string) (k : string) (d : row_dict).

Lemma foldl_put_field_other d (l : list (string * string)) k :
  k ∉ l.*1 → foldl put_field d l !! Some k = d !! Some k.
Proof.
  revert d. induction l as [|[k' v'] l IH]; intros d Hk; simpl; [done|].
  rewrite fmap_cons, not_elem_of_cons in Hk. destruct Hk as [Hne Hk].
  rewrite IH by done. unfold put_field. simpl.
  rewrite lookup_insert_ne; [done|]. intros [= ->]. done.
Qed.

Lemma zip_keys_in (hs fs : list string) k : k ∈ (zip hs fs).*1 → k ∈ hs.
Proof.
  intros H. apply list_elem_of_fmap in H as ([k' v] & -> & H).
  by apply elem_of_zip_l in H.
Qed.

End Columns.

(** X15. A check reads the cell in the column of its header; when a
    header name is repeated, the cell of the last column with that name
    is the one read. *)
Theorem X15_last_column_wins (h1 h2 f1 f2 : list string) (k v : string) :
  k ∉ h2 → length f1 = length h1 →
  DictReader.make_row (h1 ++ k :: h2) (f1 ++ v :: f2) !! Some k = Some (PyStr v).
Proof.
  intros Hk Hlen.
  assert (DictReader.dict_zip (h1 ++ k :: h2) (f1 ++ v :: f2) !! Some k = Some (PyStr v))
    as Hzip.
  { unfold DictReader.dict_zip. rewrite zip_with_app by done. simpl.
    rewrite foldl_app. simpl. rewrite foldl_put_field_other.
    - unfold DictReader.put_field at 1. simpl. by rewrite lookup_insert_eq.
    - intros H. by apply zip_keys_in in H. }
  unfold DictReader.make_row. fold (DictReader.dict_zip (h1 ++ k :: h2) (f1 ++ v :: f2)).
  destruct (_ <? _)%nat; [by rewrite lookup_insert_ne|].
  destruct (_ <? _)%nat; [|done].
  rewrite foldl_put_none_lookup, decide_False; [done|].
  rewrite length_app. simpl. rewrite Hlen.
  rewrite drop_app_ge by lia.
  replace (length h1 + S (length f2) - length h1)%nat with (S (length f2)) by lia.
  simpl. intros H. by apply subseteq_drop in H.
Qed.

Lemma X15_repeated_date_column :
  DictReader.make_row (["Date"; "type"] ++ "Date" :: ["x"])
                      (["junk"; "task"] ++ "6/1/2025" :: ["y"; "z"]) !! Some "Date"
  = Some (PyStr "6/1/2025").
Proof.
  apply (X15_last_column_wins ["Date"; "type"] ["x"] ["junk"; "task"] ["y"; "z"]
           "Date" "6/1/2025").
  - intros H. apply list_elem_of_In in H. simpl in H.
    destruct H as [H|[]]. discriminate H.
  - reflexivity.
Defined.

(** X16. The type check reads the cell of column [type] whenever
    [type] is a header, whatever a column [Type] holds, and the cell of
    [Type] only when [type] is no header: its outcome is fixed by that
    one cell.  A text is stripped and lower-cased and earns the type
    message when it is not empty and not a valid type; a missing cell
    raises.  With neither header the check does nothing. *)
Theorem X16_type_column_precedence (headers fields : list string) (idx : Z)
    (st : state) :
  let row := DictReader.make_row headers fields in
  (∀ col cell,
     col = "type" ∨ (col = "Type" ∧ "type" ∉ headers) →
     row !! Some col = Some cell →
     match cell with
     | PyStr v =>
         check_type idx row st
         = (inl tt,
            let t := PyStr.lower (PyStr.strip v) in
            if PyStr.truthy t && negb (bool_decide (t ∈ VALID_TYPES))
            then with_error st (invalid_type_msg idx t) else st)
     | PyNone =>
         check_type idx row st
         = (inr (Exception "'NoneType' object has no attribute 'strip'"), st)
     | PyList _ => False
     end)
  ∧ (("type" ∉ headers) → ("Type" ∉ headers) →
     check_type idx row st = (inl tt, st)).
Proof.
  intros row. split.
  - intros col cell Hcol Hcell.
    assert (dict_in "type" row || dict_in "Type" row = true) as Hin.
    { unfold dict_in.
      destruct Hcol as [->|[-> _]]; rewrite Hcell; [done|by rewrite orb_true_r]. }
    assert (consulted_type row = cell) as Hc.
    { destruct Hcol as [->|[-> Hno]]; [by apply consulted_type_lower|].
      apply consulted_type_upper; [by apply make_row_absent|done]. }
    destruct (make_row_values _ _ _ _ Hcell) as [->|[v ->]].
    + by apply check_type_none.
    + by apply check_type_text.
  - intros H1 H2. apply check_type_absent. unfold row.
    rewrite !dict_in_make_row. by rewrite !bool_decide_eq_false_2.
Qed.

Lemma X16_both_type_columns :
  check_type 2 (DictReader.make_row ["Type"; "type"] ["task"; "Epic "]) st0
  = (inl tt, with_error st0 (invalid_type_msg 2 "epic")).
Proof.
  refine (proj1 (X16_type_column_precedence ["Type"; "type"] ["task"; "Epic "] 2 st0)
            "type" (PyStr "Epic ") _ _).
  - left. reflexivity.
  - vm_compute. reflexivity.
Defined.

(** * The formats do not overlap *)

Section Overlap.

Import Strptime.

Lemma first_non_digit_append (t rest : string) (c : ascii) :
  string_forall PyStr.isdigit t = true → PyStr.isdigit c = false →
  first_non_digit (t +:+ String c rest) = Some (String.length t, c).
Proof.
  intros Ht Hc. induction t as [|x t IH].
  - change ("" +:+ String c rest) with (String c rest). simpl. by rewrite Hc.
  - rewrite append_cons. simpl in Ht |- *.
    apply andb_true_iff in Ht as [-> Ht]. by rewrite IH.
Qed.

(** A text matched by a layout starts with the digits of its first
    field, then its separator. *)
Lemma layout_first_separator (g : directive) (c : ascii) (its : list item)
    (s rest : string) (f0 f : found) :
  regex_chars PyStr.isdigit (directive_regex g) → PyStr.isdigit c = false →
  In (f, rest) (match_items (Group g :: Literal c :: its) s f0) →
  ∃ n, first_non_digit s = Some (n, c)
     ∧ (min_len (directive_regex g) ≤ n ≤ max_len (directive_regex g))%nat.
Proof.
  intros Hg Hc H. cbn [match_items] in H.
  apply in_flat_map in H as ([t1 s1] & H1 & H). simpl in H.
  apply in_flat_map in H as ([tc s2] & H2 & _).
  destruct (rx_sound PyStr.isdigit _ _ _ _ H1) as (-> & Hl & Hd).
  simpl in H2. destruct s1 as [|c' s1]; [done|].
  destruct (Ascii.eqb c c') eqn:E; [|done]. apply Ascii.eqb_eq in E as <-.
  exists (String.length t1). split; [|done].
  apply first_non_digit_append; [by apply Hd|done].
Qed.

Lemma parse_first_separator (f : Compiled.format) (s : string) (g : found)
    (d : datetime) :
  parse (Compiled.layout f) s = Some (g, d) →
  ∃ n, first_non_digit s
       = Some (n, match f with
                  | Compiled.ISO | Compiled.Dash => "-"
                  | Compiled.Slash => "/"
                  end%char)
     ∧ match f with Compiled.ISO => n = 4%nat | _ => (n ≤ 2)%nat end.
Proof.
  unfold parse, re_match.
  destruct (match_items (Compiled.layout f) s no_groups) as [|[f' rest] l] eqn:E;
    simpl; [done|].
  intros _.
  assert (In (f', rest) (match_items (Compiled.layout f) s no_groups)) as Hin
    by (rewrite E; by left).
  assert (∀ lo hi, 48 ≤ PyStr.ord lo → PyStr.ord hi ≤ 57 →
            ∀ c, in_range lo hi c = true → PyStr.isdigit c = true) as Hr.
  { intros lo hi Hlo Hhi c H. unfold in_range in H.
    apply andb_true_iff in H as [H1 H2]. unfold PyStr.isdigit.
    apply andb_true_iff. lia. }
  assert (regex_chars PyStr.isdigit (directive_regex dY)) as HY
    by (simpl; tauto).
  assert (regex_chars PyStr.isdigit (directive_regex dm)) as Hm.
  { simpl. repeat split; try done; apply Hr; by vm_compute. }
  destruct f; unfold Compiled.layout in Hin;
    eapply layout_first_separator in Hin as (n & Hn & Hlen);
    try done; exists n; (split; [exact Hn|]); simpl in Hlen; lia.
Qed.

(** No text has two of the layouts. *)
Lemma layouts_exclusive (f1 f2 : Compiled.format) (s : string) r1 r2 :
  parse (Compiled.layout f1) s = Some r1 →
  parse (Compiled.layout f2) s = Some r2 →
  f1 = f2.
Proof.
  destruct r1 as [g1 d1], r2 as [g2 d2]. intros H1 H2.
  apply parse_first_separator in H1 as (n1 & E1 & Hn1).
  apply parse_first_separator in H2 as (n2 & E2 & Hn2).
  rewrite E1 in E2. destruct f1, f2; try done; injection E2; intros; lia.
Qed.

(** An entry of [DATE_FORMATS] that parses a text is one of the three
    entries that compile, and the text has its layout. *)
Lemma format_cases (a s : string) (d : datetime) :
  a ∈ DATE_FORMATS → strptime s a = Some d →
  ∃ f g, a = Compiled.text f ∧ parse (Compiled.layout f) s = Some (g, d).
Proof.
  assert (∀ f, strptime s (Compiled.text f) = Some d →
            ∃ f' g, Compiled.text f = Compiled.text f'
                  ∧ parse (Compiled.layout f') s = Some (g, d)) as Hf.
  { intros f H. rewrite strptime_layout in H.
    destruct (parse (Compiled.layout f) s) as [[g d']|] eqn:P; [|done].
    simpl in H. injection H as ->. by exists f, g. }
  intros Ha. apply list_elem_of_In in Ha. simpl in Ha.
  destruct Ha as [<-|[<-|[<-|[<-|[<-|[]]]]]].
  - by apply (Hf Compiled.ISO).
  - by apply (Hf Compiled.Slash).
  - by apply (Hf Compiled.Dash).
  - by rewrite strptime_bad_directive.
  - by apply (Hf Compiled.Slash).
Qed.

(** Two entries of [DATE_FORMATS] that parse the same text are the
    same format. *)
Lemma formats_exclusive (a b s : string) (d1 d2 : datetime) :
  a ∈ DATE_FORMATS → b ∈ DATE_FORMATS →
  strptime s a = Some d1 → strptime s b = Some d2 → a = b.
Proof.
  intros Ha Hb H1 H2.
  destruct (format_cases _ _ _ Ha H1) as (f1 & g1 & -> & P1).
  destruct (format_cases _ _ _ Hb H2) as (f2 & g2 & -> & P2).
  by rewrite (layouts_exclusive _ _ _ _ _ P1 P2).
Qed.

(** What the loop over a list of formats returns. *)
Lemma try_formats_result (fmts : list string) (s : string) :
  (∃ fmt d, fmt ∈ fmts ∧ strptime (PyStr.strip s) fmt = Some d
            ∧ try_formats fmts s = (true, Some d))
  ∨ ((∀ fmt, fmt ∈ fmts → strptime (PyStr.strip s) fmt = None)
     ∧ try_formats fmts s = (false, None)).
Proof.
  induction fmts as [|fmt fmts IH]; simpl.
  - right. split; [|done]. intros fmt H. by apply elem_of_nil in H.
  - destruct (strptime (PyStr.strip s) fmt) as [d|] eqn:E.
    + left. exists fmt, d. split; [left|done].
    + destruct IH as [(fmt' & d & Hin & Hs & Ht)|[Hnone Ht]].
      * left. exists fmt', d. split; [by right|done].
      * right. split; [|done]. intros fmt' Hin.
        apply elem_of_cons in Hin as [->|Hin]; [done|by apply Hnone].
Qed.

End Overlap.

(** X17. The formats do not overlap, so the order of [DATE_FORMATS]
    plays no part: with any list holding the same formats, in any order
    and with any repetitions, the recogniser returns the same verdict
    and the same date on every text. *)
Theorem X17_format_order_irrelevant (fmts : list string) (s : string) :
  (∀ fmt, fmt ∈ fmts ↔ fmt ∈ DATE_FORMATS) →
  validate_date_with fmts s = validate_date s.
Proof.
  intros Hsame. unfold validate_date_with, validate_date.
  destruct (_ || _); [done|].
  destruct (try_formats_result fmts s) as [(a & d1 & Ha & Hs1 & ->)|[Hnone1 ->]];
    destruct (try_formats_result DATE_FORMATS s)
      as [(b & d2 & Hb & Hs2 & ->)|[Hnone2 ->]]; [|exfalso..|done].
  - apply Hsame in Ha.
    rewrite (formats_exclusive a b _ d1 d2) in Hs1 by done. congruence.
  - apply Hsame in Ha. rewrite (Hnone2 a Ha) in Hs1. done.
  - apply Hsame in Hb. rewrite (Hnone1 b Hb) in Hs2. done.
Qed.

Lemma X17_reversed_formats :
  validate_date_with (reverse DATE_FORMATS) "6-1-2025" = validate_date "6-1-2025".
Proof.
  apply (X17_format_order_irrelevant (reverse DATE_FORMATS) "6-1-2025").
  intros fmt. apply elem_of_reverse.
Defined.

(** * Column widths *)

Section Widths.

Lemma foldl_longer_bounds (texts : list string) (m : nat) :
  (m ≤ foldl longer m texts)%nat
  ∧ (∀ t, In t texts → (String.length t ≤ foldl longer m texts)%nat)
  ∧ (foldl longer m texts = m
     ∨ ∃ t, In t texts ∧ foldl longer m texts = String.length t).
Proof.
  revert m. induction texts as [|x texts IH]; intros m; simpl.
  - split; [done|]. split; [by intros t []|by left].
  - destruct (IH (longer m x)) as (Hm & Hall & Hwho).
    assert (m ≤ longer m x ∧ String.length x ≤ longer m x)%nat as [H1 H2].
    { unfold longer. destruct (m <? String.length x)%nat eqn:E.
      - apply Nat.ltb_lt in E. lia.
      - apply Nat.ltb_ge in E. lia. }
    split; [lia|]. split.
    + intros t [<-|Ht]; [lia|by apply Hall].
    + destruct Hwho as [Heq|(t & Ht & Heq)].
      * rewrite Heq. unfold longer.
        destruct (m <? String.length x)%nat; [|by left].
        right. exists x. split; [by left|done].
      * right. exists t. split; [by right|done].
Qed.

End Widths.

(** X18. The width set for a column is between 2 and 50; it leaves two
    characters beyond every cell text unless it is the cap of 50; and
    it is never wider than needed: it is 2, or the length of one of the
    cell texts plus 2, capped at 50. *)
Theorem X18_column_width (texts : list string) :
  (2 ≤ adjusted_width texts ≤ 50)%nat
  ∧ (∀ t, In t texts →
       (String.length t + 2 ≤ adjusted_width texts)%nat
       ∨ adjusted_width texts = 50%nat)
  ∧ (adjusted_width texts = 2%nat
     ∨ ∃ t, In t texts
          ∧ adjusted_width texts = Nat.min (String.length t + 2) 50).
Proof.
  unfold adjusted_width, max_length.
  destruct (foldl_longer_bounds texts 0) as (_ & Hall & Hwho).
  split; [lia|]. split.
  - intros t Ht. specialize (Hall t Ht). lia.
  - destruct Hwho as [->|(t & Ht & ->)]; [by left|]. right. by exists t.
Qed.

Lemma X18_two_cells :
  (String.length "Task Name" + 2 ≤ adjusted_width ["Task Name"; "x"])%nat
  ∨ adjusted_width ["Task Name"; "x"] = 50%nat.
Proof.
  refine (proj1 (proj2 (X18_column_width ["Task Name"; "x"])) "Task Name" _).
  left. reflexivity.
Defined.
